(** * Resumable chunked upload: a shallow embedding of [chunked_upload]

    The development follows [chunked_upload/models.py] and
    [chunked_upload/views.py].  Python objects become records, dictionaries
    become finite maps, and code that raises or mutates runs in a small
    state-and-exception monad.  Everything the code obtains from outside
    (the clock, the uuid generator, the name the storage picks for a new
    file, a fault of the blob sink) is an explicit input, [Env]. *)

From Stdlib Require Import Strings.Byte Strings.Ascii.
From stdpp Require Import base gmap strings list pretty.

Local Open Scope Z_scope.

(** ** Constants and settings *)

(** Modelled from the spec: [constants.py] is not among the sources; the
    status of a session is the enumeration [{Uploading, Complete}]. *)
Inductive Status := UPLOADING | COMPLETE.

#[global] Instance Status_eq_dec : EqDecision Status.
Proof. solve_decision. Defined.

(** Modelled from the spec: [constants.py] is not among the sources; the
    names of the members of [http_status] give their codes. *)
Module http_status.
Definition HTTP_200_OK : Z := 200.
Definition HTTP_400_BAD_REQUEST : Z := 400.
Definition HTTP_403_FORBIDDEN : Z := 403.
Definition HTTP_410_GONE : Z := 410.
End http_status.

(** The module-level settings read by the models ([settings.py] is not among
    the sources, so they are parameters) together with the class attributes
    of the two views.  Times and durations are in seconds. *)
Record Config := {
  MAX_BYTES : option Z;           (* [None]: no limit *)
  EXPIRATION_DELTA : Z;
  USE_AZURE_APPEND_BLOB : bool;
  fail_if_no_header : bool;       (* ChunkedUploadView *)
  do_md5_check : bool;            (* ChunkedUploadCompleteView *)
}.

(** What one request obtains from its environment. *)
Record Env := {
  now : Z;                        (* timezone.now() *)
  uuid4_hex : string;             (* uuid.uuid4().hex *)
  available_name : string;        (* the name the storage gives a new file *)
  write_fault : option nat;       (* [Some k]: the sink fails after k bytes *)
}.

(** [hashlib.md5] followed by [hexdigest], over the whole byte stream. *)
Class Hashlib := { md5_hexdigest : list byte → string }.

(** ** Data *)

(** The model [ChunkedUpload].  [pk] is Django's [id]; [user_id] is the
    column of the foreign key [user]; [_md5] is the cached digest, an
    attribute of the instance that is never stored.  [created_on] is filled
    by the insert ([auto_now_add]) and is read on no path before it. *)
Record ChunkedUpload := {
  pk : option Z;
  upload_id : string;
  file : string;
  filename : string;
  offset : Z;
  created_on : Z;
  status : Status;
  completed_on : option Z;
  user_id : option Z;
  _md5 : option string;
}.

Definition set_pk (v : option Z) (self : ChunkedUpload) : ChunkedUpload :=
  {| pk := v; upload_id := upload_id self; file := file self;
     filename := filename self; offset := offset self;
     created_on := created_on self; status := status self;
     completed_on := completed_on self; user_id := user_id self;
     _md5 := _md5 self |}.

Definition set_file (v : string) (self : ChunkedUpload) : ChunkedUpload :=
  {| pk := pk self; upload_id := upload_id self; file := v;
     filename := filename self; offset := offset self;
     created_on := created_on self; status := status self;
     completed_on := completed_on self; user_id := user_id self;
     _md5 := _md5 self |}.

Definition set_offset (v : Z) (self : ChunkedUpload) : ChunkedUpload :=
  {| pk := pk self; upload_id := upload_id self; file := file self;
     filename := filename self; offset := v;
     created_on := created_on self; status := status self;
     completed_on := completed_on self; user_id := user_id self;
     _md5 := _md5 self |}.

Definition set_created_on (v : Z) (self : ChunkedUpload) : ChunkedUpload :=
  {| pk := pk self; upload_id := upload_id self; file := file self;
     filename := filename self; offset := offset self;
     created_on := v; status := status self;
     completed_on := completed_on self; user_id := user_id self;
     _md5 := _md5 self |}.

Definition set_status (v : Status) (self : ChunkedUpload) : ChunkedUpload :=
  {| pk := pk self; upload_id := upload_id self; file := file self;
     filename := filename self; offset := offset self;
     created_on := created_on self; status := v;
     completed_on := completed_on self; user_id := user_id self;
     _md5 := _md5 self |}.

Definition set_completed_on (v : option Z) (self : ChunkedUpload)
  : ChunkedUpload :=
  {| pk := pk self; upload_id := upload_id self; file := file self;
     filename := filename self; offset := offset self;
     created_on := created_on self; status := status self;
     completed_on := v; user_id := user_id self;
     _md5 := _md5 self |}.

Definition set__md5 (v : option string) (self : ChunkedUpload)
  : ChunkedUpload :=
  {| pk := pk self; upload_id := upload_id self; file := file self;
     filename := filename self; offset := offset self;
     created_on := created_on self; status := status self;
     completed_on := completed_on self; user_id := user_id self;
     _md5 := v |}.

(** The chunk of a request, [request.FILES['file']]: Django's upload handlers
    set [size] to the number of bytes received, so it is derived. *)
Record Chunk := { name : string; content : list byte }.

Definition size (chunk : Chunk) : Z := Z.of_nat (length (content chunk)).
Definition read (chunk : Chunk) : list byte := content chunk.

(** [UploadedFile(file=..., name=..., size=...)] as built by
    [get_uploaded_file]: the field file it wraps, the mode it was opened
    in, and the name and size it reports. *)
Record UploadedFile := {
  uf_file : string;
  uf_mode : string;
  uf_name : string;
  uf_size : Z;
}.

Record User := { user_pk : Z; is_authenticated : bool }.

(** [user] is [None] when the request has no attribute [user]. *)
Record Request := {
  user : option User;
  FILES : gmap string Chunk;
  POST : gmap string string;
  META : gmap string string;
}.

Inductive Value := VStr (s : string) | VInt (n : Z) | VTime (t : Z).

(** Modelled from the spec: [exceptions.py] is not among the sources; a
    failure is the structured error [{statusCode, detail, offset?}], and
    [data] is the dictionary of its keyword arguments. *)
Record ChunkedUploadError := {
  status_code : Z;
  detail : string;
  error_offset : option Z;
}.

Definition data (error : ChunkedUploadError) : list (string * Value) :=
  ("detail"%string, VStr (detail error)) ::
  match error_offset error with
  | Some o => [("offset"%string, VInt o)]
  | None => []
  end.

(** Modelled from the spec: [response.py] is not among the sources; a
    response is a dictionary and a status code. *)
Record Response := { response_data : list (string * Value); response_status : Z }.

(** ** The world, and the monad of the code *)

(** [objects] is the table of the model, keyed by the unique [upload_id];
    [storage] maps the name of a file or blob to its bytes; [completions]
    records, newest first, the arguments [on_completion] was called with
    (the hook itself is a placeholder). *)
Record World := {
  objects : gmap string ChunkedUpload;
  next_pk : Z;
  storage : gmap string (list byte);
  completions : list UploadedFile;
}.

Definition set_objects (v : gmap string ChunkedUpload) (w : World) : World :=
  {| objects := v; next_pk := next_pk w; storage := storage w;
     completions := completions w |}.

Definition set_next_pk (v : Z) (w : World) : World :=
  {| objects := objects w; next_pk := v; storage := storage w;
     completions := completions w |}.

Definition set_storage (v : gmap string (list byte)) (w : World) : World :=
  {| objects := objects w; next_pk := next_pk w; storage := v;
     completions := completions w |}.

Definition set_completions (v : list UploadedFile) (w : World) : World :=
  {| objects := objects w; next_pk := next_pk w; storage := storage w;
     completions := v |}.

Inductive Exception :=
| CUE (error : ChunkedUploadError)   (* raise ChunkedUploadError(...) *)
| Http404                            (* get_object_or_404 *)
| IOError                            (* the storage backend failed *)
| IntegrityError                     (* unique constraint of the table *)
| NotImplementedError.

Inductive Outcome (A : Type) :=
| Return (a : A)
| Raise (e : Exception).
Arguments Return {A} a.
Arguments Raise {A} e.

(** A computation over a state [S]: changes made before an exception is
    raised stay made. *)
Definition M (S A : Type) : Type := S → S * Outcome A.

Definition ret {S A} (a : A) : M S A := λ s, (s, Return a).

Definition raise {S A} (e : Exception) : M S A := λ s, (s, Raise e).

Definition bind {S A B} (m : M S A) (k : A → M S B) : M S B :=
  λ s, match m s with
       | (s', Return a) => k a s'
       | (s', Raise e) => (s', Raise e)
       end.

Definition get {S} : M S S := λ s, (s, Return s).

Definition modify {S} (f : S → S) : M S unit := λ s, (f s, Return tt).

Notation "'let*' x ':=' m 'in' k" := (bind m (λ x, k))
  (at level 10, x pattern, m at level 100, k at level 200).

(** A method runs on [self] and the world; [call self m] runs it from a view
    and hands back the object as the method left it. *)
Definition Method (A : Type) : Type := M (ChunkedUpload * World) A.

Definition self_ : Method ChunkedUpload := λ s, (s, Return (fst s)).

Definition update_self (f : ChunkedUpload → ChunkedUpload) : Method unit :=
  modify (λ s, (f (fst s), snd s)).

Definition in_world {A} (m : M World A) : Method A :=
  λ s, let '(w', r) := m (snd s) in ((fst s, w'), r).

Definition call {A} (self : ChunkedUpload) (m : Method A)
  : M World (ChunkedUpload * A) :=
  λ w, match m (self, w) with
       | ((self', w'), Return a) => (w', Return (self', a))
       | ((_, w'), Raise e) => (w', Raise e)
       end.

(** Python's truth value of [request.POST.get(key)]. *)
Definition truthy (v : option string) : bool :=
  match v with
  | Some (String _ _) => true
  | _ => false
  end.

(** ** models.py *)

Module AbstractChunkedUpload.

Definition expires_on (cfg : Config) (self : ChunkedUpload) : Z :=
  created_on self + EXPIRATION_DELTA cfg.

Definition expired (cfg : Config) (env : Env) (self : ChunkedUpload) : bool :=
  expires_on cfg self <=? now env.

(** The digest of the backing object, computed over all its chunks unless
    one is cached.  Reading an object the storage does not hold fails. *)
Definition md5 `{Hashlib} : Method string :=
  let* self := self_ in
  match _md5 self with
  | Some digest => ret digest
  | None =>
      let* w := in_world get in
      match storage w !! file self with
      | None => raise IOError
      | Some bytes =>
          let* _ := update_self (set__md5 (Some (md5_hexdigest bytes))) in
          ret (md5_hexdigest bytes)
      end
  end.

(** [models.Model.save]: an object without primary key is inserted, and the
    insert fills [id] and [created_on] and enforces the unique [upload_id];
    an object with one is updated.  [_md5] is not a column. *)
Definition save (env : Env) : Method unit :=
  let* self := self_ in
  let* w := in_world get in
  match pk self with
  | None =>
      match objects w !! upload_id self with
      | Some _ => raise IntegrityError
      | None =>
          let* _ := update_self (λ self,
                      set_created_on (now env) (set_pk (Some (next_pk w)) self)) in
          let* self := self_ in
          in_world (modify (λ w,
            set_next_pk (next_pk w + 1)
              (set_objects (<[upload_id self := set__md5 None self]> (objects w)) w)))
      end
  | Some _ =>
      in_world (modify (λ w,
        set_objects (<[upload_id self := set__md5 None self]> (objects w)) w))
  end.

(** The operations of the append blob client. *)
Definition exists_ (blob_name : string) : M World bool :=
  let* w := get in
  ret (bool_decide (is_Some (storage w !! blob_name))).

Definition delete_blob (blob_name : string) : M World unit :=
  modify (λ w, set_storage (delete blob_name (storage w)) w).

Definition create_append_blob (blob_name : string) : M World unit :=
  modify (λ w, set_storage (<[blob_name := []]> (storage w)) w).

(** A block is appended whole or not at all; the blob has to exist. *)
Definition append_block (env : Env) (blob_name : string) (bytes : list byte)
  : M World unit :=
  let* w := get in
  match write_fault env, storage w !! blob_name with
  | None, Some old =>
      modify (λ w, set_storage (<[blob_name := old ++ bytes]> (storage w)) w)
  | _, _ => raise IOError
  end.

(** [with open(path, mode='ab') as file_obj: file_obj.write(bytes)]: the
    file is created when missing; a write that fails after [k] bytes leaves
    those bytes in the file. *)
Definition open_ab_write (env : Env) (path : string) (bytes : list byte)
  : M World unit :=
  let* w := get in
  let old := default [] (storage w !! path) in
  match write_fault env with
  | None =>
      modify (λ w, set_storage (<[path := old ++ bytes]> (storage w)) w)
  | Some k =>
      let* _ := modify (λ w,
                  set_storage (<[path := old ++ take k bytes]> (storage w)) w) in
      raise IOError
  end.

(** [hasattr(chunk, 'size')] holds of every chunk, so the third way of
    advancing the offset (by the measured length) is never taken; opening
    and closing the field file leave the world as it is. *)
Definition append_chunk (cfg : Config) (env : Env) (chunk : Chunk)
    (chunk_size : option Z) (save_ : bool) : Method unit :=
  let* _ :=
    if USE_AZURE_APPEND_BLOB cfg then
      let* self := self_ in
      let blob_name := file self in
      let* _ :=
        if bool_decide (offset self = 0) then
          let* found := in_world (exists_ blob_name) in
          let* _ := if found then in_world (delete_blob blob_name) else ret tt in
          in_world (create_append_blob blob_name)
        else ret tt in
      let bytes := read chunk in
      let* _ := in_world (append_block env blob_name bytes) in
      match chunk_size with
      | Some n => update_self (λ self, set_offset (offset self + n) self)
      | None => update_self (λ self, set_offset (offset self + size chunk) self)
      end
    else
      let* self := self_ in
      let* _ := in_world (open_ab_write env (file self) (read chunk)) in
      match chunk_size with
      | Some n => update_self (λ self, set_offset (offset self + n) self)
      | None => update_self (λ self, set_offset (offset self + size chunk) self)
      end in
  let* _ := update_self (set__md5 None) in
  if save_ then save env else ret tt.

(** The field file is reopened for reading, which fails when the storage
    does not hold it; the handle reports the session's offset as its size. *)
Definition get_uploaded_file : Method UploadedFile :=
  let* self := self_ in
  let* w := in_world get in
  match storage w !! file self with
  | None => raise IOError
  | Some _ =>
      ret {| uf_file := file self; uf_mode := "rb";
             uf_name := filename self; uf_size := offset self |}
  end.

End AbstractChunkedUpload.

(** ** views.py *)

(** *** The pattern of the content-range header

    [^bytes (?P<start>\d+)-(?P<end>\d+)/(?P<total>\d+)$], matched as
    [re.match] does.  A header value is a string of 8-bit characters, among
    which [\d] is one of the ten ASCII digits; a run of digits is followed
    by a character that is not a digit, so the longest run is the only one
    that can match; [$] also matches before a final newline. *)

Definition is_digit (c : ascii) : bool :=
  (48 <=? nat_of_ascii c)%nat && (nat_of_ascii c <=? 57)%nat.

Fixpoint digits (s : string) : string * string :=
  match s with
  | String c rest =>
      if is_digit c then let '(ds, tail) := digits rest in (String c ds, tail)
      else (EmptyString, s)
  | EmptyString => (EmptyString, EmptyString)
  end.

Fixpoint int_from (acc : Z) (ds : string) : Z :=
  match ds with
  | String c rest => int_from (10 * acc + (Z.of_nat (nat_of_ascii c) - 48)) rest
  | EmptyString => acc
  end.

(** Python's [int] on a string of digits. *)
Definition int (ds : string) : Z := int_from 0 ds.

Fixpoint literal (lit s : string) : option string :=
  match lit, s with
  | EmptyString, _ => Some s
  | String a lit', String b s' =>
      if bool_decide (a = b) then literal lit' s' else None
  | String _ _, EmptyString => None
  end.

(** One group [(\d+)]: at least one digit. *)
Definition group (s : string) : option (Z * string) :=
  match digits s with
  | (String c ds, rest) => Some (int (String c ds), rest)
  | (EmptyString, _) => None
  end.

Definition at_end (s : string) : bool :=
  match s with
  | EmptyString => true
  | String c EmptyString => bool_decide (c = "010"%char)
  | _ => false
  end.

Definition content_range_pattern_match (s : string) : option (Z * Z * Z) :=
  s ← literal "bytes " s;
  '(start, s) ← group s;
  s ← literal "-" s;
  '(end_, s) ← group s;
  s ← literal "/" s;
  '(total, s) ← group s;
  if at_end s then Some (start, end_, total) else None.

(** *** ChunkedUploadBaseView *)

Module ChunkedUploadBaseView.

(** An object loaded from the table has no attribute [_md5].  The model
    has the field [user], so the queryset is narrowed to the uploads of the
    requesting user whenever the request carries an authenticated one. *)
Definition get_queryset (request : Request) : M World (gmap string ChunkedUpload) :=
  let* w := get in
  let queryset := set__md5 None <$> objects w in
  match user request with
  | Some u =>
      if is_authenticated u then
        ret (filter (λ row : string * ChunkedUpload,
                       user_id row.2 = Some (user_pk u)) queryset)
      else ret queryset
  | None => ret queryset
  end.

Definition validate (request : Request) : M World unit := ret tt.

Definition get_response_data (cfg : Config) (chunked_upload : ChunkedUpload)
    (request : Request) : list (string * Value) := [].

Definition pre_save (request : Request) (new : bool) : Method unit := ret tt.

Definition save (env : Env) (request : Request) (new : bool) : Method unit :=
  AbstractChunkedUpload.save env.

Definition post_save (request : Request) (new : bool) : Method unit := ret tt.

Definition _save (env : Env) (request : Request) : Method unit :=
  let* self := self_ in
  let new := bool_decide (pk self = None) in
  let* _ := pre_save request new in
  let* _ := save env request new in
  post_save request new.

Definition check_permissions (request : Request) : M World unit :=
  match user request with
  | Some u =>
      if negb (is_authenticated u) then
        raise (CUE {| status_code := http_status.HTTP_403_FORBIDDEN;
                      detail := "Authentication credentials were not provided";
                      error_offset := None |})
      else ret tt
  | None => ret tt
  end.

Definition _post (request : Request) : M World Response :=
  raise NotImplementedError.

(** [post] of a view whose [_post] is the given one: a
    [ChunkedUploadError] becomes the response; any other exception goes on
    to the caller. *)
Definition post (_post : Request → M World Response) (request : Request)
  : M World Response :=
  λ w, match (let* _ := check_permissions request in _post request) w with
       | (w', Raise (CUE error)) =>
           (w', Return {| response_data := data error;
                          response_status := status_code error |})
       | r => r
       end.

(** [get_object_or_404(queryset, upload_id=...)]. *)
Definition get_object_or_404 (queryset : gmap string ChunkedUpload)
    (upload_id : string) : M World ChunkedUpload :=
  match queryset !! upload_id with
  | Some chunked_upload => ret chunked_upload
  | None => raise Http404
  end.

End ChunkedUploadBaseView.

(** [fmt % arg] for a format with one [%s]. *)
Fixpoint percent_s (fmt arg : string) : string :=
  match fmt with
  | String "%"%char (String "s"%char rest) => arg +:+ rest
  | String c rest => String c (percent_s rest arg)
  | EmptyString => EmptyString
  end.

Definition dquote : string := String "034"%char EmptyString.

(** *** ChunkedUploadView *)

Module ChunkedUploadView.
Import ChunkedUploadBaseView.

Definition field_name : string := "file".
Definition content_range_header : string := "HTTP_CONTENT_RANGE".

(** The attribute [user] of a new upload, when the request carries an
    authenticated user. *)
Definition get_extra_attrs (request : Request) : option Z :=
  match user request with
  | Some u => if is_authenticated u then Some (user_pk u) else None
  | None => None
  end.

Definition get_max_bytes (cfg : Config) (request : Request) : option Z :=
  MAX_BYTES cfg.

(** The model instantiated from the attributes, with the defaults of the
    other fields, then
    [file.save(name='tmp', content=ContentFile(b''), save=save)]: the
    storage stores an empty file under the name it picks. *)
Definition create_chunked_upload (env : Env) (save_ : bool)
    (filename_ : string) (user_ : option Z) : M World ChunkedUpload :=
  let chunked_upload :=
    {| pk := None; upload_id := uuid4_hex env; file := EmptyString;
       filename := filename_; offset := 0; created_on := 0;
       status := UPLOADING; completed_on := None; user_id := user_;
       _md5 := None |} in
  let* (chunked_upload, _) := call chunked_upload (
    let* _ := in_world (modify (λ w,
                set_storage (<[available_name env := []]> (storage w)) w)) in
    let* _ := update_self (set_file (available_name env)) in
    if save_ then AbstractChunkedUpload.save env else ret tt) in
  ret chunked_upload.

Definition is_valid_chunked_upload (cfg : Config) (env : Env)
    (chunked_upload : ChunkedUpload) : M World unit :=
  if AbstractChunkedUpload.expired cfg env chunked_upload then
    raise (CUE {| status_code := http_status.HTTP_410_GONE;
                  detail := "Upload has expired";
                  error_offset := None |})
  else
    let error_msg :=
      "Upload has already been marked as " +:+ dquote +:+ "%s" +:+ dquote in
    if bool_decide (status chunked_upload = COMPLETE) then
      raise (CUE {| status_code := http_status.HTTP_400_BAD_REQUEST;
                    detail := percent_s error_msg "complete";
                    error_offset := None |})
    else ret tt.

Definition get_response_data (cfg : Config) (chunked_upload : ChunkedUpload)
    (request : Request) : list (string * Value) :=
  [("upload_id"%string, VStr (upload_id chunked_upload));
   ("offset"%string, VInt (offset chunked_upload));
   ("expires"%string, VTime (AbstractChunkedUpload.expires_on cfg chunked_upload))].

Definition _post (cfg : Config) (env : Env) (request : Request)
  : M World Response :=
  match FILES request !! field_name with
  | None =>
      raise (CUE {| status_code := http_status.HTTP_400_BAD_REQUEST;
                    detail := "No chunk file was submitted";
                    error_offset := None |})
  | Some chunk =>
      let* _ := validate request in
      let upload_id_ := POST request !! "upload_id" in
      let* chunked_upload :=
        if truthy upload_id_ then
          let* queryset := get_queryset request in
          let* chunked_upload :=
            get_object_or_404 queryset (default EmptyString upload_id_) in
          let* _ := is_valid_chunked_upload cfg env chunked_upload in
          ret chunked_upload
        else
          create_chunked_upload env false (name chunk) (get_extra_attrs request) in
      let content_range :=
        default EmptyString (META request !! content_range_header) in
      let* (start, end_, total) :=
        match content_range_pattern_match content_range with
        | Some range => ret range
        | None =>
            if fail_if_no_header cfg then
              raise (CUE {| status_code := http_status.HTTP_400_BAD_REQUEST;
                            detail := "Error in request headers";
                            error_offset := None |})
            else
              (* Use the whole size when HTTP_CONTENT_RANGE is not provided *)
              ret (0, size chunk - 1, size chunk)
        end in
      let chunk_size := end_ - start + 1 in
      let max_bytes := get_max_bytes cfg request in
      let* _ :=
        match max_bytes with
        | Some limit =>
            if limit <? total then
              raise (CUE {| status_code := http_status.HTTP_400_BAD_REQUEST;
                            detail := percent_s
                              "Size of file exceeds the limit (%s bytes)"
                              (pretty limit);
                            error_offset := None |})
            else ret tt
        | None => ret tt
        end in
      if negb (bool_decide (offset chunked_upload = start)) then
        raise (CUE {| status_code := http_status.HTTP_400_BAD_REQUEST;
                      detail := "Offsets do not match";
                      error_offset := Some (offset chunked_upload) |})
      else if negb (bool_decide (size chunk = chunk_size)) then
        raise (CUE {| status_code := http_status.HTTP_400_BAD_REQUEST;
                      detail := "File size doesn't match headers";
                      error_offset := None |})
      else
        let* (chunked_upload, _) :=
          call chunked_upload
            (AbstractChunkedUpload.append_chunk cfg env chunk (Some chunk_size) false) in
        let* (chunked_upload, _) := call chunked_upload (_save env request) in
        ret {| response_data := get_response_data cfg chunked_upload request;
               response_status := http_status.HTTP_200_OK |}
  end.

Definition post (cfg : Config) (env : Env) : Request → M World Response :=
  ChunkedUploadBaseView.post (_post cfg env).

End ChunkedUploadView.

(** *** ChunkedUploadCompleteView *)

Module ChunkedUploadCompleteView.
Import ChunkedUploadBaseView.

(** The placeholder does nothing; the world keeps what it was called with. *)
Definition on_completion (uploaded_file : UploadedFile) (request : Request)
  : M World unit :=
  modify (λ w, set_completions (uploaded_file :: completions w) w).

Definition is_valid_chunked_upload (chunked_upload : ChunkedUpload)
  : M World unit :=
  if bool_decide (status chunked_upload = COMPLETE) then
    let error_msg := "Upload has already been marked as complete"%string in
    raise (CUE {| status_code := http_status.HTTP_400_BAD_REQUEST;
                  detail := error_msg;
                  error_offset := None |})
  else ret tt.

Definition md5_check `{Hashlib} (md5 : option string) : Method unit :=
  let* digest := AbstractChunkedUpload.md5 in
  if negb (bool_decide (Some digest = md5)) then
    raise (CUE {| status_code := http_status.HTTP_400_BAD_REQUEST;
                  detail := "md5 checksum does not match";
                  error_offset := None |})
  else ret tt.

Definition _post `{Hashlib} (cfg : Config) (env : Env) (request : Request)
  : M World Response :=
  let upload_id_ := POST request !! "upload_id" in
  let md5 := POST request !! "md5" in
  let error_msg : option string :=
    if do_md5_check cfg then
      if negb (truthy upload_id_) || negb (truthy md5) then
        Some "Both 'upload_id' and 'md5' are required"%string
      else None
    else if negb (truthy upload_id_) then
      Some "'upload_id' is required"%string
    else None in
  let* _ :=
    match error_msg with
    | Some msg =>
        raise (CUE {| status_code := http_status.HTTP_400_BAD_REQUEST;
                      detail := msg;
                      error_offset := None |})
    | None => ret tt
    end in
  let* queryset := get_queryset request in
  let* chunked_upload :=
    get_object_or_404 queryset (default EmptyString upload_id_) in
  let* _ := validate request in
  let* _ := is_valid_chunked_upload chunked_upload in
  let* (chunked_upload, _) :=
    if do_md5_check cfg then call chunked_upload (md5_check md5)
    else ret (chunked_upload, tt) in
  let chunked_upload := set_status COMPLETE chunked_upload in
  let chunked_upload := set_completed_on (Some (now env)) chunked_upload in
  let* (chunked_upload, _) := call chunked_upload (_save env request) in
  let* (chunked_upload, uploaded_file) :=
    call chunked_upload AbstractChunkedUpload.get_uploaded_file in
  let* _ := on_completion uploaded_file request in
  ret {| response_data := get_response_data cfg chunked_upload request;
         response_status := http_status.HTTP_200_OK |}.

Definition post `{Hashlib} (cfg : Config) (env : Env)
  : Request → M World Response :=
  ChunkedUploadBaseView.post (_post cfg env).

End ChunkedUploadCompleteView.

(** ** The vocabulary of the specification *)

(** The error kinds of the specification, as the views raise them. *)
Definition bad_request (msg : string) : ChunkedUploadError :=
  {| status_code := 400; detail := msg; error_offset := None |}.

Definition MissingChunk : ChunkedUploadError :=
  bad_request "No chunk file was submitted".

Definition Expired : ChunkedUploadError :=
  {| status_code := 410; detail := "Upload has expired"; error_offset := None |}.

Definition AlreadyComplete : ChunkedUploadError :=
  bad_request ("Upload has already been marked as " +:+ dquote +:+ "complete" +:+ dquote).

Definition AlreadyComplete_on_completion : ChunkedUploadError :=
  bad_request "Upload has already been marked as complete".

Definition MissingRangeHeader : ChunkedUploadError :=
  bad_request "Error in request headers".

Definition SizeLimitExceeded (limit : Z) : ChunkedUploadError :=
  bad_request ("Size of file exceeds the limit (" +:+ pretty limit +:+ " bytes)").

Definition OffsetMismatch (current : Z) : ChunkedUploadError :=
  {| status_code := 400; detail := "Offsets do not match";
     error_offset := Some current |}.

Definition SizeMismatch : ChunkedUploadError :=
  bad_request "File size doesn't match headers".

Definition ChecksumMismatch : ChunkedUploadError :=
  bad_request "md5 checksum does not match".

(** The chunk a request carries, and the range its header declares. *)
Definition chunk_of (request : Request) : option Chunk :=
  FILES request !! ChunkedUploadView.field_name.

Definition declared_range (request : Request) : option (Z * Z * Z) :=
  content_range_pattern_match
    (default EmptyString (META request !! ChunkedUploadView.content_range_header)).

(** The session a request names: the one its [upload_id] selects from the
    queryset of the request. *)
Definition named_session (request : Request) (w : World) : option ChunkedUpload :=
  if truthy (POST request !! "upload_id") then
    match ChunkedUploadBaseView.get_queryset request w with
    | (_, Return queryset) =>
        queryset !! default EmptyString (POST request !! "upload_id")
    | (_, Raise _) => None
    end
  else None.

(** Whether the queryset of a request shows it an upload. *)
Definition sees (request : Request) (s : ChunkedUpload) : bool :=
  match user request with
  | Some u =>
      if is_authenticated u then bool_decide (user_id s = Some (user_pk u))
      else true
  | None => true
  end.

Definition within_limit (cfg : Config) (total : Z) : bool :=
  match MAX_BYTES cfg with
  | Some limit => negb (limit <? total)
  | None => true
  end.

(** The persisted session with a given identifier, as a request loads it. *)
Definition session (w : World) (uid : string) : option ChunkedUpload :=
  set__md5 None <$> objects w !! uid.

(** The bytes of the backing object of a session. *)
Definition backing_object (w : World) (s : ChunkedUpload) : option (list byte) :=
  storage w !! file s.

(** A session is stored when the table holds it under its own identifier and
    with a primary key, as every row the views have saved is. *)
Definition stored (w : World) (s : ChunkedUpload) : Prop :=
  session w (upload_id s) = Some s ∧ is_Some (pk s).

(** The three stages [ChunkedUploadView._post] goes through once it has the
    chunk: it resolves the upload, reads the range, and checks, appends and
    saves.  [_post_stages] below shows that [_post] is their composition. *)
Module Stage.
Import ChunkedUploadBaseView ChunkedUploadView.

Definition resolve (cfg : Config) (env : Env) (request : Request)
    (chunk : Chunk) : M World ChunkedUpload :=
  let upload_id_ := POST request !! "upload_id" in
  if truthy upload_id_ then
    let* queryset := get_queryset request in
    let* chunked_upload :=
      get_object_or_404 queryset (default EmptyString upload_id_) in
    let* _ := is_valid_chunked_upload cfg env chunked_upload in
    ret chunked_upload
  else
    create_chunked_upload env false (name chunk) (get_extra_attrs request).

Definition read_range (cfg : Config) (request : Request) (chunk : Chunk)
  : M World (Z * Z * Z) :=
  match declared_range request with
  | Some range => ret range
  | None =>
      if fail_if_no_header cfg then raise (CUE MissingRangeHeader)
      else ret (0, size chunk - 1, size chunk)
  end.

Definition append_and_save (cfg : Config) (env : Env) (request : Request)
    (chunk : Chunk) (chunked_upload : ChunkedUpload) (range : Z * Z * Z)
  : M World Response :=
  let '(start, end_, total) := range in
  let chunk_size := end_ - start + 1 in
  let* _ :=
    match get_max_bytes cfg request with
    | Some limit =>
        if limit <? total then raise (CUE (SizeLimitExceeded limit)) else ret tt
    | None => ret tt
    end in
  if negb (bool_decide (offset chunked_upload = start)) then
    raise (CUE (OffsetMismatch (offset chunked_upload)))
  else if negb (bool_decide (size chunk = chunk_size)) then
    raise (CUE SizeMismatch)
  else
    let* (chunked_upload, _) :=
      call chunked_upload
        (AbstractChunkedUpload.append_chunk cfg env chunk (Some chunk_size) false) in
    let* (chunked_upload, _) := call chunked_upload (_save env request) in
    ret {| response_data := get_response_data cfg chunked_upload request;
           response_status := http_status.HTTP_200_OK |}.

End Stage.

(** The session after an accepted chunk of [n] bytes, and the world after
    the request: the bytes are at the end of the backing object (which the
    append blob backend starts afresh at offset zero) and the row is saved. *)
Definition advanced (n : Z) (s : ChunkedUpload) : ChunkedUpload :=
  set__md5 None (set_offset (offset s + n) s).

Definition sink_base (cfg : Config) (s : ChunkedUpload) (w : World) : list byte :=
  if USE_AZURE_APPEND_BLOB cfg && bool_decide (offset s = 0) then []
  else default [] (storage w !! file s).

Definition appended (cfg : Config) (s : ChunkedUpload) (chunk : Chunk)
    (w : World) : World :=
  set_objects (<[upload_id s := advanced (size chunk) s]> (objects w))
    (set_storage (<[file s := sink_base cfg s w ++ content chunk]> (storage w)) w).

Definition accepted (outcome : Outcome Response) : Prop :=
  ∃ response, outcome = Return response ∧ response_status response = 200.

(** The upload a request without [upload_id] starts, before it is saved,
    and the world once the storage holds its empty file. *)
Definition new_upload (env : Env) (request : Request) (chunk : Chunk)
  : ChunkedUpload :=
  {| pk := None; upload_id := uuid4_hex env; file := available_name env;
     filename := name chunk; offset := 0; created_on := 0;
     status := UPLOADING; completed_on := None;
     user_id := ChunkedUploadView.get_extra_attrs request; _md5 := None |}.

Definition with_empty_file (env : Env) (w : World) : World :=
  set_storage (<[available_name env := []]> (storage w)) w.

(** The row the first accepted chunk of a new upload inserts. *)
Definition inserted (env : Env) (w : World) (s : ChunkedUpload) : ChunkedUpload :=
  set__md5 None (set_created_on (now env) (set_pk (Some (next_pk w)) s)).

(** Whether [check_permissions] lets a request through. *)
Definition permitted (request : Request) : bool :=
  match user request with
  | Some u => is_authenticated u
  | None => true
  end.

#[global] Instance User_eq_dec : EqDecision User.
Proof. solve_decision. Defined.

(** *** Whole uploads

    The requests of one client, each with what it finds in its
    environment, handled one after the other. *)
Fixpoint run (cfg : Config) (requests : list (Env * Request)) (w : World)
  : World * list (Outcome Response) :=
  match requests with
  | [] => (w, [])
  | (env, request) :: rest =>
      let '(w, outcome) := ChunkedUploadView._post cfg env request w in
      let '(w, outcomes) := run cfg rest w in
      (w, outcome :: outcomes)
  end.

(** The range the view works with: the declared one, or the synthesized
    one when there is none and the header is not required. *)
Definition range_used (cfg : Config) (request : Request) (chunk : Chunk)
  : option (Z * Z * Z) :=
  match declared_range request with
  | Some range => Some range
  | None =>
      if fail_if_no_header cfg then None
      else Some (0, size chunk - 1, size chunk)
  end.

(** Delivery strictly in order from offset [off]: every request carries a
    chunk, starts where the previous one ended, and carries as many bytes as
    its range declares. *)
Fixpoint in_order (cfg : Config) (off : Z) (requests : list (Env * Request))
  : bool :=
  match requests with
  | [] => true
  | (_, request) :: rest =>
      match chunk_of request with
      | Some chunk =>
          match range_used cfg request chunk with
          | Some (start, end_, _) =>
              bool_decide (start = off)
              && bool_decide (size chunk = end_ - start + 1)
              && in_order cfg (off + size chunk) rest
          | None => false
          end
      | None => false
      end
  end.

(** The declared total is within the limit and the blob sink does not fail. *)
Definition admitted (cfg : Config) (r : Env * Request) : bool :=
  match chunk_of r.2 with
  | Some chunk =>
      match range_used cfg r.2 chunk with
      | Some (_, _, total) => within_limit cfg total
      | None => false
      end
  | None => false
  end && bool_decide (write_fault r.1 = None).

(** A later request of the upload [first] started: it names the upload,
    comes from the same user, and arrives before the upload expires. *)
Definition continues (cfg : Config) (first r : Env * Request) : bool :=
  bool_decide (POST r.2 !! "upload_id" = Some (uuid4_hex first.1))
  && bool_decide (user r.2 = user first.2)
  && (now r.1 <? now first.1 + EXPIRATION_DELTA cfg).

Definition chunk_bytes (r : Env * Request) : list byte :=
  match chunk_of r.2 with
  | Some chunk => content chunk
  | None => []
  end.

(** The bytes of all chunks, in order. *)
Definition assembled (requests : list (Env * Request)) : list byte :=
  concat (chunk_bytes <$> requests).

(** The sum of the lengths of all chunks. *)
Definition chunk_lengths (requests : list (Env * Request)) : Z :=
  foldr (λ r total, Z.of_nat (length (chunk_bytes r)) + total) 0 requests.

(** While an upload goes on, the table holds its row and the storage holds
    as many bytes as the row's offset says. *)
Record in_progress (first : Env * Request) (w : World) (s : ChunkedUpload)
    (bytes : list byte) : Prop := {
  progress_row : objects w !! uuid4_hex first.1 = Some s;
  progress_id : upload_id s = uuid4_hex first.1;
  progress_pk : is_Some (pk s);
  progress_status : status s = UPLOADING;
  progress_created : created_on s = now first.1;
  progress_owner : user_id s = ChunkedUploadView.get_extra_attrs first.2;
  progress_bytes : storage w !! file s = Some bytes;
  progress_offset : offset s = Z.of_nat (length bytes);
}.

(** The last stage of [ChunkedUploadCompleteView._post], from the change
    of status on, for the upload as the checks left it. *)
Definition finish (cfg : Config) (env : Env) (request : Request)
    (chunked_upload : ChunkedUpload) : M World Response :=
  let chunked_upload := set_status COMPLETE chunked_upload in
  let chunked_upload := set_completed_on (Some (now env)) chunked_upload in
  let* (chunked_upload, _) :=
    call chunked_upload (ChunkedUploadBaseView._save env request) in
  let* (chunked_upload, uploaded_file) :=
    call chunked_upload AbstractChunkedUpload.get_uploaded_file in
  let* _ := ChunkedUploadCompleteView.on_completion uploaded_file request in
  ret {| response_data :=
           ChunkedUploadBaseView.get_response_data cfg chunked_upload request;
         response_status := http_status.HTTP_200_OK |}.

(** The session once completed at the time of [env], the handle the
    completion hook receives, and the world after a successful completion. *)
Definition completed (env : Env) (s : ChunkedUpload) : ChunkedUpload :=
  set__md5 None (set_completed_on (Some (now env)) (set_status COMPLETE s)).

Definition handle (s : ChunkedUpload) : UploadedFile :=
  {| uf_file := file s; uf_mode := "rb"; uf_name := filename s;
     uf_size := offset s |}.

Definition completion (env : Env) (s : ChunkedUpload) (w : World) : World :=
  set_completions (handle s :: completions w)
    (set_objects (<[upload_id s := completed env s]> (objects w)) w).

(** The checksum of a completion request is the digest of the bytes. *)
Definition checksum_matches `{Hashlib} (request : Request) (bytes : list byte)
  : Prop :=
  POST request !! "md5" = Some (md5_hexdigest bytes)
  ∧ truthy (POST request !! "md5") = true.

(** *** Consistent worlds

    A world is consistent when every row of the table is stored under its
    own [upload_id], has its primary key, and has its file in the storage.
    A method is ready to run on an object when the world is consistent and
    holds the file of the object. *)
Definition consistent (w : World) : Prop :=
  map_Forall (λ uid row,
    upload_id row = uid ∧ is_Some (pk row) ∧ is_Some (storage w !! file row))
    (objects w).

Definition ready (s : ChunkedUpload * World) : Prop :=
  consistent s.2 ∧ is_Some (storage s.2 !! file s.1).

(** A triple for the monad: from a state in [P], the computation ends in
    [Q] when it returns and in [E] when it raises. *)
Definition triple {S A} (P : S → Prop) (m : M S A) (Q : A → S → Prop)
    (E : S → Prop) : Prop :=
  ∀ s, P s →
    match m s with
    | (s', Return a) => Q a s'
    | (s', Raise _) => E s'
    end.

(** A computation that keeps an invariant, however it ends. *)
Definition keeps {S A} (P : S → Prop) (m : M S A) : Prop :=
  triple P m (λ _, P) P.

(** The table of [w] is that of [w0]: the same rows, the same next primary
    key, the same record of completions. *)
Definition same_table (w0 w : World) : Prop :=
  objects w = objects w0 ∧ next_pk w = next_pk w0
  ∧ completions w = completions w0.

(** *** Sample data

    One upload of a hundred bytes, [a.txt], in two halves, with a limit of
    a thousand bytes and an expiration window of one day. *)
Module Sample.

Definition cfg : Config :=
  {| MAX_BYTES := Some 1000; EXPIRATION_DELTA := 86400;
     USE_AZURE_APPEND_BLOB := false; fail_if_no_header := false;
     do_md5_check := true |}.

(** The same with the append blob backend. *)
Definition azure_cfg : Config :=
  {| MAX_BYTES := Some 1000; EXPIRATION_DELTA := 86400;
     USE_AZURE_APPEND_BLOB := true; fail_if_no_header := false;
     do_md5_check := true |}.

(** The same with the range header required, and with the checksum not
    verified. *)
Definition strict_cfg : Config :=
  {| MAX_BYTES := Some 1000; EXPIRATION_DELTA := 86400;
     USE_AZURE_APPEND_BLOB := false; fail_if_no_header := true;
     do_md5_check := true |}.

Definition unverified_cfg : Config :=
  {| MAX_BYTES := Some 1000; EXPIRATION_DELTA := 86400;
     USE_AZURE_APPEND_BLOB := false; fail_if_no_header := false;
     do_md5_check := false |}.

Definition env (t : Z) : Env :=
  {| now := t; uuid4_hex := "0f3a"; available_name := "uploads/0f3a.part";
     write_fault := None |}.

Definition faulty_env (k : nat) : Env :=
  {| now := 60; uuid4_hex := "0f3a"; available_name := "uploads/0f3a.part";
     write_fault := Some k |}.

Definition bytes (n : nat) : list byte := repeat "a"%byte n.

Definition row (n : Z) (st : Status) (done : option Z) : ChunkedUpload :=
  {| pk := Some 1; upload_id := "0f3a"; file := "uploads/0f3a.part";
     filename := "a.txt"; offset := n; created_on := 0; status := st;
     completed_on := done; user_id := None; _md5 := None |}.

Definition world (s : ChunkedUpload) (stored_bytes : nat) : World :=
  {| objects := {[ "0f3a"%string := s ]}; next_pk := 2;
     storage := {[ "uploads/0f3a.part"%string := bytes stored_bytes ]};
     completions := [] |}.

Definition empty_world : World :=
  {| objects := ∅; next_pk := 1; storage := ∅; completions := [] |}.

(** A chunk of [n] bytes for the upload [uid], with the given header. *)
Definition append (uid range : option string) (n : nat) : Request :=
  {| user := None;
     FILES := {[ "file"%string := {| name := "a.txt"; content := bytes n |} ]};
     POST := match uid with Some uid => {[ "upload_id"%string := uid ]} | None => ∅ end;
     META := match range with
             | Some range => {[ "HTTP_CONTENT_RANGE"%string := range ]}
             | None => ∅
             end |}.

(** A completion request for the upload [uid] with the checksum [md5]. *)
Definition complete (uid md5 : string) : Request :=
  {| user := None; FILES := ∅;
     POST := {[ "upload_id"%string := uid; "md5"%string := md5 ]};
     META := ∅ |}.

(** The same request, as sent by the user [u]. *)
Definition sent_by (u : User) (request : Request) : Request :=
  {| user := Some u; FILES := FILES request; POST := POST request;
     META := META request |}.

Definition alice : User := {| user_pk := 7; is_authenticated := true |}.
Definition anonymous : User := {| user_pk := 0; is_authenticated := false |}.

(** A stand-in for the digest: the number of bytes, in decimal. *)
#[local] Instance length_digest : Hashlib :=
  {| md5_hexdigest := λ bytes, pretty (length bytes) |}.

End Sample.

(** ** Running the monad *)

Lemma bind_return {S A B} (m : M S A) (k : A → M S B) s s' a :
  m s = (s', Return a) → bind m k s = k a s'.
Proof. intros E. unfold bind. by rewrite E. Qed.

Lemma bind_raise {S A B} (m : M S A) (k : A → M S B) s s' e :
  m s = (s', Raise e) → bind m k s = (s', Raise e).
Proof. intros E. unfold bind. by rewrite E. Qed.

Lemma _post_stages cfg env request :
  ChunkedUploadView._post cfg env request =
  match chunk_of request with
  | None => raise (CUE MissingChunk)
  | Some chunk =>
      let* _ := ChunkedUploadBaseView.validate request in
      let* chunked_upload := Stage.resolve cfg env request chunk in
      let* range := Stage.read_range cfg request chunk in
      Stage.append_and_save cfg env request chunk chunked_upload range
  end.
Proof. reflexivity. Qed.

Ltac mrun :=
  unfold bind, ret, raise, get, modify, self_, update_self, in_world, call;
  cbn -[Z.add Z.ltb Z.leb].

(** ** The model *)

Section Model.
Import AbstractChunkedUpload.
Context (cfg : Config) (env : Env).

Lemma save_update self w p :
  pk self = Some p →
  save env (self, w) =
    ((self, set_objects (<[upload_id self := set__md5 None self]> (objects w)) w),
     Return tt).
Proof. intros Hp. unfold save. mrun. by rewrite Hp. Qed.

Lemma save_insert self w :
  pk self = None → objects w !! upload_id self = None →
  let self' := set_created_on (now env) (set_pk (Some (next_pk w)) self) in
  save env (self, w) =
    ((self', set_next_pk (next_pk w + 1)
               (set_objects (<[upload_id self := set__md5 None self']> (objects w)) w)),
     Return tt).
Proof. intros Hp Hfree. unfold save. mrun. by rewrite Hp, Hfree. Qed.

Lemma save_taken self w :
  pk self = None → is_Some (objects w !! upload_id self) →
  save env (self, w) = ((self, w), Raise IntegrityError).
Proof. intros Hp [row Hrow]. unfold save. mrun. by rewrite Hp, Hrow. Qed.

Lemma append_chunk_ok chunk n self w :
  write_fault env = None →
  (USE_AZURE_APPEND_BLOB cfg = true → offset self ≠ 0 →
   is_Some (storage w !! file self)) →
  append_chunk cfg env chunk (Some n) false (self, w) =
    ((advanced n self,
      set_storage (<[file self := sink_base cfg self w ++ content chunk]> (storage w)) w),
     Return tt).
Proof.
  intros Hfault Hblob. unfold append_chunk, sink_base.
  destruct (USE_AZURE_APPEND_BLOB cfg) eqn:Hazure.
  - unfold append_block, exists_, delete_blob, create_append_blob. mrun.
    rewrite Hfault. case_bool_decide as Hzero; cbn.
    + case_bool_decide; cbn; rewrite lookup_insert_eq; cbn;
        unfold set_storage; cbn; rewrite insert_insert_eq;
        by rewrite ?insert_delete_eq.
    + destruct (Hblob eq_refl Hzero) as [old Hold]. by rewrite Hold.
  - unfold open_ab_write, read. mrun. by rewrite Hfault.
Qed.

End Model.

(** ** The views *)

Section Views.
Import ChunkedUploadBaseView ChunkedUploadView.
Context (cfg : Config) (env : Env).

Lemma get_queryset_run request w :
  ∃ queryset, get_queryset request w = (w, Return queryset)
    ∧ ∀ uid s, queryset !! uid = Some s ↔
        ∃ row, objects w !! uid = Some row ∧ s = set__md5 None row
               ∧ sees request row = true.
Proof.
  unfold get_queryset, sees. mrun.
  destruct (user request) as [u|]; [destruct (is_authenticated u)|];
    (eexists; split; [reflexivity|]); intros uid s;
    rewrite ?map_lookup_filter_Some, lookup_fmap, fmap_Some; cbn.
  - split.
    + intros [(row & Hrow & ->) Hu]. exists row. by rewrite bool_decide_eq_true.
    + intros (row & Hrow & -> & Hu). rewrite bool_decide_eq_true in Hu. eauto.
  - split; intros (row & ? & ?); exists row; tauto.
  - split; intros (row & ? & ?); exists row; tauto.
Qed.

Lemma named_session_Some request w s :
  named_session request w = Some s ↔
  ∃ uid row, POST request !! "upload_id" = Some uid ∧ truthy (Some uid) = true
    ∧ objects w !! uid = Some row ∧ s = set__md5 None row
    ∧ sees request row = true.
Proof.
  unfold named_session.
  destruct (get_queryset_run request w) as (q & -> & Hq).
  destruct (POST request !! "upload_id") as [uid|] eqn:Euid; cbn -[truthy].
  - destruct (truthy (Some uid)) eqn:Et.
    + rewrite Hq. split.
      * intros (row & ?). exists uid, row. tauto.
      * intros (uid' & row & [= <-] & _ & ?). exists row. tauto.
    + split; [done|]. intros (uid' & row & [= <-] & Ht & _). congruence.
  - split; [done|]. intros (uid' & row & [=] & _).
Qed.

Lemma resolve_existing request chunk w s :
  named_session request w = Some s →
  Stage.resolve cfg env request chunk w =
    if AbstractChunkedUpload.expired cfg env s then (w, Raise (CUE Expired))
    else if bool_decide (status s = COMPLETE) then (w, Raise (CUE AlreadyComplete))
    else (w, Return s).
Proof.
  unfold named_session, Stage.resolve. intros Hs.
  destruct (truthy (POST request !! "upload_id")); [|done].
  destruct (get_queryset_run request w) as (q & Eq & _). rewrite Eq in Hs.
  rewrite (bind_return _ _ _ _ _ Eq).
  unfold get_object_or_404, is_valid_chunked_upload. rewrite Hs. mrun.
  destruct (AbstractChunkedUpload.expired cfg env s); [done|].
  by case_bool_decide.
Qed.

Lemma resolve_new request chunk w :
  truthy (POST request !! "upload_id") = false →
  Stage.resolve cfg env request chunk w =
    (with_empty_file env w, Return (new_upload env request chunk)).
Proof. unfold Stage.resolve. by intros ->. Qed.

Lemma read_range_declared request chunk w range :
  declared_range request = Some range →
  Stage.read_range cfg request chunk w = (w, Return range).
Proof. unfold Stage.read_range. by intros ->. Qed.

Lemma read_range_absent request chunk w :
  declared_range request = None →
  Stage.read_range cfg request chunk w =
    if fail_if_no_header cfg then (w, Raise (CUE MissingRangeHeader))
    else (w, Return (0, size chunk - 1, size chunk)).
Proof.
  unfold Stage.read_range. intros ->. by destruct (fail_if_no_header cfg).
Qed.

Lemma append_and_save_over_limit request chunk s start end_ total limit w :
  MAX_BYTES cfg = Some limit → limit < total →
  Stage.append_and_save cfg env request chunk s (start, end_, total) w =
    (w, Raise (CUE (SizeLimitExceeded limit))).
Proof.
  intros Hmax Hlt. unfold Stage.append_and_save, get_max_bytes. rewrite Hmax.
  apply Z.ltb_lt in Hlt. by rewrite Hlt.
Qed.

Lemma within_limit_check request total w :
  within_limit cfg total = true →
  match get_max_bytes cfg request return M World unit with
  | Some limit =>
      if limit <? total then raise (CUE (SizeLimitExceeded limit)) else ret tt
  | None => ret tt
  end w = (w, Return tt).
Proof.
  unfold within_limit, get_max_bytes. destruct (MAX_BYTES cfg) as [limit|]; [|done].
  by destruct (limit <? total).
Qed.

Lemma append_and_save_offset request chunk s start end_ total w :
  within_limit cfg total = true → offset s ≠ start →
  Stage.append_and_save cfg env request chunk s (start, end_, total) w =
    (w, Raise (CUE (OffsetMismatch (offset s)))).
Proof.
  intros Hlim Hoff. unfold Stage.append_and_save.
  rewrite (bind_return _ _ _ _ _ (within_limit_check request total w Hlim)).
  by rewrite bool_decide_eq_false_2.
Qed.

Lemma append_and_save_size request chunk s end_ total w :
  within_limit cfg total = true → size chunk ≠ end_ - offset s + 1 →
  Stage.append_and_save cfg env request chunk s (offset s, end_, total) w =
    (w, Raise (CUE SizeMismatch)).
Proof.
  intros Hlim Hsize. unfold Stage.append_and_save.
  rewrite (bind_return _ _ _ _ _ (within_limit_check request total w Hlim)).
  rewrite bool_decide_eq_true_2 by done. by rewrite bool_decide_eq_false_2.
Qed.

Lemma append_and_save_existing request chunk s end_ total w p :
  pk s = Some p →
  within_limit cfg total = true →
  size chunk = end_ - offset s + 1 →
  write_fault env = None →
  (USE_AZURE_APPEND_BLOB cfg = true → offset s ≠ 0 → is_Some (storage w !! file s)) →
  Stage.append_and_save cfg env request chunk s (offset s, end_, total) w =
    (appended cfg s chunk w,
     Return {| response_data := get_response_data cfg (advanced (size chunk) s) request;
               response_status := 200 |}).
Proof.
  intros Hpk Hlim Hsize Hfault Hblob. unfold Stage.append_and_save.
  rewrite (bind_return _ _ _ _ _ (within_limit_check request total w Hlim)).
  rewrite !bool_decide_eq_true_2 by done. cbn [negb].
  erewrite bind_return; last first.
  { unfold call. by rewrite (append_chunk_ok cfg env) by done. }
  cbn beta iota. rewrite <- Hsize.
  erewrite bind_return; last first.
  { unfold call, _save, pre_save, post_save, ChunkedUploadBaseView.save.
    erewrite bind_return by reflexivity. cbn beta.
    erewrite bind_return by reflexivity.
    erewrite bind_return by (by apply save_update with (p := p)).
    reflexivity. }
  reflexivity.
Qed.

Lemma append_and_save_new request chunk s end_ total w :
  pk s = None → objects w !! upload_id s = None →
  within_limit cfg total = true →
  size chunk = end_ - offset s + 1 →
  write_fault env = None →
  (USE_AZURE_APPEND_BLOB cfg = true → offset s ≠ 0 → is_Some (storage w !! file s)) →
  let row := inserted env w (advanced (size chunk) s) in
  Stage.append_and_save cfg env request chunk s (offset s, end_, total) w =
    (set_next_pk (next_pk w + 1)
       (set_objects (<[upload_id s := row]> (objects w))
          (set_storage (<[file s := sink_base cfg s w ++ content chunk]> (storage w)) w)),
     Return {| response_data := get_response_data cfg row request;
               response_status := 200 |}).
Proof.
  intros Hpk Hfree Hlim Hsize Hfault Hblob. unfold Stage.append_and_save.
  rewrite (bind_return _ _ _ _ _ (within_limit_check request total w Hlim)).
  rewrite !bool_decide_eq_true_2 by done. cbn [negb].
  erewrite bind_return; last first.
  { unfold call. by rewrite (append_chunk_ok cfg env) by done. }
  cbn beta iota. rewrite <- Hsize.
  erewrite bind_return; last first.
  { unfold call, _save, pre_save, post_save, ChunkedUploadBaseView.save.
    erewrite bind_return by reflexivity. cbn beta.
    erewrite bind_return by reflexivity.
    erewrite bind_return by (by apply save_insert).
    reflexivity. }
  reflexivity.
Qed.

End Views.

(** ** Chunk append: rejections *)

Section Rejections.
Import AbstractChunkedUpload ChunkedUploadBaseView ChunkedUploadView.
Context (cfg : Config) (env : Env).

(** What [post] makes of a [ChunkedUploadError] raised by [_post]. *)
Lemma post_error_response _post request w w' error :
  permitted request = true →
  _post request w = (w', Raise (CUE error)) →
  ChunkedUploadBaseView.post _post request w =
    (w', Return {| response_data := data error;
                   response_status := status_code error |}).
Proof.
  unfold permitted, ChunkedUploadBaseView.post, check_permissions.
  intros Hperm Hpost.
  destruct (user request) as [u|]; [rewrite Hperm|]; cbn [negb];
    by rewrite (bind_return _ _ w w tt), Hpost.
Qed.

Lemma post_propagates _post request w w' e :
  permitted request = true →
  (∀ error, e ≠ CUE error) →
  _post request w = (w', Raise e) →
  ChunkedUploadBaseView.post _post request w = (w', Raise e).
Proof.
  unfold permitted, ChunkedUploadBaseView.post, check_permissions.
  intros Hperm Hother Hpost.
  destruct (user request) as [u|]; [rewrite Hperm|]; cbn [negb];
    rewrite (bind_return _ _ w w tt), Hpost by done;
    destruct e; try done; by destruct (Hother error).
Qed.

(** The outcome of a chunk append on an existing session, up to the offset
    check. *)
Lemma _post_existing request w s chunk range :
  named_session request w = Some s →
  chunk_of request = Some chunk →
  declared_range request = Some range →
  _post cfg env request w =
    if expired cfg env s then (w, Raise (CUE Expired))
    else if bool_decide (status s = COMPLETE) then (w, Raise (CUE AlreadyComplete))
    else Stage.append_and_save cfg env request chunk s range w.
Proof.
  intros Hs Hchunk Hrange. rewrite _post_stages, Hchunk.
  rewrite (bind_return _ _ w w tt) by done.
  pose proof (resolve_existing cfg env request chunk w s Hs) as Hres.
  destruct (expired cfg env s); [by rewrite (bind_raise _ _ _ _ _ Hres)|].
  case_bool_decide; [by rewrite (bind_raise _ _ _ _ _ Hres)|].
  rewrite (bind_return _ _ _ _ _ Hres).
  by rewrite (bind_return _ _ _ _ _ (read_range_declared cfg request chunk w range Hrange)).
Qed.

End Rejections.

(** C1 (amended).  A chunk-append request that carries a chunk, names an
    existing session and declares a range whose start is not the session's
    offset always fails and leaves the world, hence the session's offset,
    unchanged; [post] answers with the data of the error.  The error is
    OffsetMismatch, carrying the session's current offset, when the session
    is neither expired nor complete and the declared total is within the
    limit; otherwise it is that of the first of these checks that fails:
    Expired, AlreadyComplete, SizeLimitExceeded. *)
Theorem offset_mismatch_rejected cfg env request w s chunk start end_ total :
  named_session request w = Some s →
  chunk_of request = Some chunk →
  declared_range request = Some (start, end_, total) →
  offset s ≠ start →
  ∃ error,
    ChunkedUploadView._post cfg env request w = (w, Raise (CUE error))
    ∧ (permitted request = true →
       ChunkedUploadView.post cfg env request w =
         (w, Return {| response_data := data error;
                       response_status := status_code error |}))
    ∧ error =
        (if AbstractChunkedUpload.expired cfg env s then Expired
         else if bool_decide (status s = COMPLETE) then AlreadyComplete
         else match MAX_BYTES cfg with
              | Some limit =>
                  if limit <? total then SizeLimitExceeded limit
                  else OffsetMismatch (offset s)
              | None => OffsetMismatch (offset s)
              end)
    ∧ (AbstractChunkedUpload.expired cfg env s = false →
       status s = UPLOADING → within_limit cfg total = true →
       error = OffsetMismatch (offset s)
       ∧ data error = [("detail"%string, VStr "Offsets do not match");
                       ("offset"%string, VInt (offset s))]).
Proof.
  intros Hs Hchunk Hrange Hoff.
  pose proof (_post_existing cfg env request w s chunk _ Hs Hchunk Hrange) as Hpost.
  eexists. split; [|split; [|split; [reflexivity|]]].
  - rewrite Hpost.
    destruct (AbstractChunkedUpload.expired cfg env s); [reflexivity|].
    case_bool_decide; [reflexivity|].
    destruct (MAX_BYTES cfg) as [limit|] eqn:Hmax.
    + destruct (limit <? total) eqn:Hlt.
      * apply Z.ltb_lt in Hlt. by apply append_and_save_over_limit.
      * apply append_and_save_offset; [|done]. unfold within_limit.
        by rewrite Hmax, Hlt.
    + apply append_and_save_offset; [|done]. unfold within_limit. by rewrite Hmax.
  - intros Hperm. apply post_error_response; [done|].
    rewrite Hpost.
    destruct (AbstractChunkedUpload.expired cfg env s); [reflexivity|].
    case_bool_decide; [reflexivity|].
    destruct (MAX_BYTES cfg) as [limit|] eqn:Hmax.
    + destruct (limit <? total) eqn:Hlt.
      * apply Z.ltb_lt in Hlt. by apply append_and_save_over_limit.
      * apply append_and_save_offset; [|done]. unfold within_limit.
        by rewrite Hmax, Hlt.
    + apply append_and_save_offset; [|done]. unfold within_limit. by rewrite Hmax.
  - intros -> Hst Hlim. rewrite bool_decide_eq_false_2 by congruence.
    unfold within_limit in Hlim. destruct (MAX_BYTES cfg) as [limit|]; [|done].
    by destruct (limit <? total).
Qed.

(** The second half of an upload is sent again with the range of the first:
    the answer is OffsetMismatch with offset 50, and nothing changes. *)
Lemma offset_mismatch_rejected_witness :
  let request := Sample.append (Some "0f3a") (Some "bytes 0-49/100") 50 in
  let w := Sample.world (Sample.row 50 UPLOADING None) 50 in
  ChunkedUploadView.post Sample.cfg (Sample.env 60) request w =
    (w, Return {| response_data := [("detail"%string, VStr "Offsets do not match");
                                    ("offset"%string, VInt 50)];
                  response_status := 400 |}).
Proof.
  intros request w.
  destruct (offset_mismatch_rejected Sample.cfg (Sample.env 60) request w
              (Sample.row 50 UPLOADING None)
              {| name := "a.txt"; content := Sample.bytes 50 |} 0 49 100)
    as (error & _ & Hpost & -> & _);
    [vm_compute; reflexivity| vm_compute; reflexivity | vm_compute; reflexivity
    | vm_compute; discriminate |].
  exact (Hpost eq_refl).
Defined.

(** C1, as stated, fails: the same resent chunk, now declaring a total of
    2000 bytes against a limit of 1000, is rejected with SizeLimitExceeded,
    which is checked before the offsets are compared. *)
Lemma offset_mismatch_after_size_limit :
  let request := Sample.append (Some "0f3a") (Some "bytes 0-49/2000") 50 in
  let w := Sample.world (Sample.row 50 UPLOADING None) 50 in
  named_session request w = Some (Sample.row 50 UPLOADING None)
  ∧ declared_range request = Some (0, 49, 2000)
  ∧ offset (Sample.row 50 UPLOADING None) ≠ 0
  ∧ ChunkedUploadView._post Sample.cfg (Sample.env 60) request w =
      (w, Raise (CUE (SizeLimitExceeded 1000)))
  ∧ SizeLimitExceeded 1000 ≠ OffsetMismatch 50.
Proof. vm_compute. repeat split; discriminate. Qed.

(** C5 (amended).  A chunk-append request that carries a chunk and names a
    session whose status is Complete always fails, before anything is
    appended: the world, hence the session's offset and its backing object,
    is left unchanged.  The error is AlreadyComplete unless the session has
    expired, which is checked first and reported as Expired. *)
Theorem complete_session_rejects_append cfg env request w s chunk :
  named_session request w = Some s →
  chunk_of request = Some chunk →
  status s = COMPLETE →
  ChunkedUploadView._post cfg env request w =
    (w, Raise (CUE (if AbstractChunkedUpload.expired cfg env s then Expired
                    else AlreadyComplete))).
Proof.
  intros Hs Hchunk Hst. rewrite _post_stages, Hchunk.
  rewrite (bind_return _ _ w w tt) by done.
  pose proof (resolve_existing cfg env request chunk w s Hs) as Hres.
  rewrite bool_decide_eq_true_2 in Hres by done.
  destruct (AbstractChunkedUpload.expired cfg env s);
    by rewrite (bind_raise _ _ _ _ _ Hres).
Qed.

(** A chunk for a session completed a minute ago is refused with
    AlreadyComplete. *)
Lemma complete_session_rejects_append_witness :
  let request := Sample.append (Some "0f3a") (Some "bytes 100-149/150") 50 in
  let w := Sample.world (Sample.row 100 COMPLETE (Some 30)) 100 in
  ChunkedUploadView._post Sample.cfg (Sample.env 90) request w =
    (w, Raise (CUE AlreadyComplete)).
Proof.
  intros request w.
  apply (complete_session_rejects_append Sample.cfg (Sample.env 90) request w
           (Sample.row 100 COMPLETE (Some 30))
           {| name := "a.txt"; content := Sample.bytes 50 |});
    vm_compute; reflexivity.
Defined.

(** C5, as stated, fails: two days later the same request for the same
    complete session is refused with Expired (status 410), not with
    AlreadyComplete. *)
Lemma complete_session_expired_first :
  let request := Sample.append (Some "0f3a") (Some "bytes 100-149/150") 50 in
  let w := Sample.world (Sample.row 100 COMPLETE (Some 30)) 100 in
  named_session request w = Some (Sample.row 100 COMPLETE (Some 30))
  ∧ ChunkedUploadView._post Sample.cfg (Sample.env 172800) request w =
      (w, Raise (CUE Expired))
  ∧ Expired ≠ AlreadyComplete.
Proof. vm_compute. repeat split; discriminate. Qed.

(** C9 (amended).  A chunk-append request that carries a chunk, has no
    [upload_id] and declares a range whose start is not 0 always fails and
    persists no session (the storage keeps the empty file made for it).
    The error is OffsetMismatch reporting offset 0 when the declared total
    is within the limit, and SizeLimitExceeded, which is checked first,
    when it is not. *)
Theorem new_upload_must_start_at_zero cfg env request w chunk start end_ total :
  truthy (POST request !! "upload_id") = false →
  chunk_of request = Some chunk →
  declared_range request = Some (start, end_, total) →
  start ≠ 0 →
  ∃ error,
    ChunkedUploadView._post cfg env request w =
      (with_empty_file env w, Raise (CUE error))
    ∧ objects (with_empty_file env w) = objects w
    ∧ error = match MAX_BYTES cfg with
              | Some limit =>
                  if limit <? total then SizeLimitExceeded limit
                  else OffsetMismatch 0
              | None => OffsetMismatch 0
              end
    ∧ (within_limit cfg total = true → error = OffsetMismatch 0).
Proof.
  intros Hnew Hchunk Hrange Hstart.
  eexists. split; [|split; [reflexivity|split; [reflexivity|]]].
  - rewrite _post_stages, Hchunk.
    rewrite (bind_return _ _ w w tt) by done.
    rewrite (bind_return _ _ _ _ _ (resolve_new cfg env request chunk w Hnew)).
    rewrite (bind_return _ _ _ _ _
               (read_range_declared cfg request chunk _ _ Hrange)).
    destruct (MAX_BYTES cfg) as [limit|] eqn:Hmax.
    + destruct (limit <? total) eqn:Hlt.
      * apply Z.ltb_lt in Hlt. by apply append_and_save_over_limit.
      * apply (append_and_save_offset cfg env request chunk
                 (new_upload env request chunk)); [|by cbn].
        unfold within_limit. by rewrite Hmax, Hlt.
    + apply (append_and_save_offset cfg env request chunk
               (new_upload env request chunk)); [|by cbn].
      unfold within_limit. by rewrite Hmax.
  - unfold within_limit. destruct (MAX_BYTES cfg) as [limit|]; [|done].
    by destruct (limit <? total).
Qed.

(** A new upload that begins with the second half of the file is answered
    with OffsetMismatch and offset 0. *)
Lemma new_upload_must_start_at_zero_witness :
  let request := Sample.append None (Some "bytes 50-99/100") 50 in
  ChunkedUploadView._post Sample.cfg (Sample.env 60) request Sample.empty_world =
    (with_empty_file (Sample.env 60) Sample.empty_world,
     Raise (CUE (OffsetMismatch 0))).
Proof.
  intros request.
  destruct (new_upload_must_start_at_zero Sample.cfg (Sample.env 60) request
              Sample.empty_world
              {| name := "a.txt"; content := Sample.bytes 50 |} 50 99 100)
    as (error & Hpost & _ & -> & _);
    [vm_compute; reflexivity | vm_compute; reflexivity | vm_compute; reflexivity
    | discriminate |].
  exact Hpost.
Defined.

(** C9, as stated, fails: with a limit of 1000 bytes, a new upload whose
    header declares start 50 and total 2000 is answered with
    SizeLimitExceeded, not with OffsetMismatch. *)
Lemma new_upload_size_limit_first :
  let request := Sample.append None (Some "bytes 50-99/2000") 50 in
  truthy (POST request !! "upload_id") = false
  ∧ declared_range request = Some (50, 99, 2000)
  ∧ snd (ChunkedUploadView._post Sample.cfg (Sample.env 60) request Sample.empty_world)
      = Raise (CUE (SizeLimitExceeded 1000))
  ∧ SizeLimitExceeded 1000 ≠ OffsetMismatch 0.
Proof. vm_compute. repeat split; discriminate. Qed.

(** ** Chunk append: acceptance *)

Section Acceptance.
Import AbstractChunkedUpload ChunkedUploadBaseView ChunkedUploadView.
Context (cfg : Config) (env : Env).

Lemma read_range_used request chunk w range :
  range_used cfg request chunk = Some range →
  Stage.read_range cfg request chunk w = (w, Return range).
Proof.
  unfold range_used, Stage.read_range.
  destruct (declared_range request); [by intros [= ->]|].
  destruct (fail_if_no_header cfg); [done|by intros [= <-]].
Qed.

(** The world after the first chunk of a new upload has been accepted. *)
Lemma _post_new_accepted request w chunk end_ total :
  truthy (POST request !! "upload_id") = false →
  chunk_of request = Some chunk →
  range_used cfg request chunk = Some (0, end_, total) →
  size chunk = end_ - 0 + 1 →
  within_limit cfg total = true →
  write_fault env = None →
  objects w !! uuid4_hex env = None →
  let row := inserted env w (advanced (size chunk) (new_upload env request chunk)) in
  _post cfg env request w =
    (set_next_pk (next_pk w + 1)
       (set_objects (<[uuid4_hex env := row]> (objects w))
          (set_storage (<[available_name env := content chunk]> (storage w)) w)),
     Return {| response_data := get_response_data cfg row request;
               response_status := 200 |}).
Proof.
  intros Hnew Hchunk Hrange Hsize Hlim Hfault Hfree row.
  rewrite _post_stages, Hchunk.
  rewrite (bind_return _ _ w w tt) by done.
  rewrite (bind_return _ _ _ _ _ (resolve_new cfg env request chunk w Hnew)).
  rewrite (bind_return _ _ _ _ _ (read_range_used request chunk _ _ Hrange)).
  pose proof (append_and_save_new cfg env request chunk
                (new_upload env request chunk) end_ total
                (with_empty_file env w)) as Hsave.
  cbn [offset new_upload] in Hsave. rewrite Hsave; try done.
  - unfold sink_base, with_empty_file. cbn.
    rewrite lookup_insert_eq. cbn. rewrite insert_insert_eq.
    by destruct (USE_AZURE_APPEND_BLOB cfg).
Qed.

(** The world after a chunk for an existing session has been accepted. *)
Lemma _post_existing_accepted request w s chunk end_ total :
  named_session request w = Some s →
  is_Some (pk s) →
  is_Some (backing_object w s) →
  chunk_of request = Some chunk →
  range_used cfg request chunk = Some (offset s, end_, total) →
  size chunk = end_ - offset s + 1 →
  within_limit cfg total = true →
  expired cfg env s = false →
  status s = UPLOADING →
  write_fault env = None →
  _post cfg env request w =
    (appended cfg s chunk w,
     Return {| response_data := get_response_data cfg (advanced (size chunk) s) request;
               response_status := 200 |}).
Proof.
  intros Hs [p Hpk] Hblob Hchunk Hrange Hsize Hlim Hexp Hst Hfault.
  rewrite _post_stages, Hchunk.
  rewrite (bind_return _ _ w w tt) by done.
  pose proof (resolve_existing cfg env request chunk w s Hs) as Hres.
  rewrite Hexp, bool_decide_eq_false_2 in Hres by congruence.
  rewrite (bind_return _ _ _ _ _ Hres).
  rewrite (bind_return _ _ _ _ _ (read_range_used request chunk _ _ Hrange)).
  by apply append_and_save_existing with (p := p).
Qed.

End Acceptance.

(** C7.  When a chunk-append request has no range header and the header is
    not required, [_post] goes on with start 0, end [size - 1] and total
    [size]: it is the composition of its stages with that range in the
    place of the declared one.  In particular a new upload (no [upload_id])
    of one chunk, of 100 bytes or any other size the limit admits, is
    accepted when the sink takes the bytes and the identifier is new, and
    yields a session with the size of the chunk as offset (100) and status
    Uploading, whose backing object holds the chunk. *)
Theorem missing_range_header_is_whole_file cfg env request w chunk :
  fail_if_no_header cfg = false →
  declared_range request = None →
  chunk_of request = Some chunk →
  Stage.read_range cfg request chunk w =
    (w, Return (0, size chunk - 1, size chunk))
  ∧ ChunkedUploadView._post cfg env request w =
      (let* chunked_upload := Stage.resolve cfg env request chunk in
       Stage.append_and_save cfg env request chunk chunked_upload
         (0, size chunk - 1, size chunk)) w
  ∧ (truthy (POST request !! "upload_id") = false →
     within_limit cfg (size chunk) = true →
     write_fault env = None →
     objects w !! uuid4_hex env = None →
     ∃ w' response s,
       ChunkedUploadView._post cfg env request w = (w', Return response)
       ∧ response_status response = 200
       ∧ session w' (uuid4_hex env) = Some s
       ∧ offset s = size chunk
       ∧ status s = UPLOADING
       ∧ filename s = name chunk
       ∧ backing_object w' s = Some (content chunk)).
Proof.
  intros Hpolicy Hrange Hchunk.
  assert (Stage.read_range cfg request chunk w =
            (w, Return (0, size chunk - 1, size chunk))) as Hread.
  { rewrite read_range_absent by done. by rewrite Hpolicy. }
  split; [done|]. split.
  - rewrite _post_stages, Hchunk.
    rewrite (bind_return _ _ w w tt) by done.
    unfold bind at 1 3.
    destruct (Stage.resolve cfg env request chunk w) as [w1 [s|e]]; [|done].
    unfold bind. rewrite read_range_absent by done. by rewrite Hpolicy.
  - intros Hnew Hlim Hfault Hfree.
    eexists _, _, _. split.
    { apply _post_new_accepted with (end_ := size chunk - 1) (total := size chunk);
        try done; [|lia].
      unfold range_used. by rewrite Hrange, Hpolicy. }
    split; [done|]. split.
    { unfold session. cbn. rewrite lookup_insert_eq. reflexivity. }
    cbn. split; [lia|]. split; [done|]. split; [done|].
    unfold backing_object. cbn. by rewrite lookup_insert_eq.
Qed.

(** The scenario of the specification: [a.txt], 100 bytes, no range header,
    no [upload_id], with [fail_if_no_header] off. *)
Lemma missing_range_header_is_whole_file_witness :
  let request := Sample.append None None 100 in
  ∃ w' response s,
    ChunkedUploadView._post Sample.cfg (Sample.env 0) request Sample.empty_world
      = (w', Return response)
    ∧ response_status response = 200
    ∧ session w' "0f3a" = Some s
    ∧ offset s = 100
    ∧ status s = UPLOADING
    ∧ filename s = "a.txt"%string
    ∧ backing_object w' s = Some (Sample.bytes 100).
Proof.
  intros request.
  destruct (missing_range_header_is_whole_file Sample.cfg (Sample.env 0) request
              Sample.empty_world
              {| name := "a.txt"; content := Sample.bytes 100 |})
    as (_ & _ & Hscenario);
    [vm_compute; reflexivity | vm_compute; reflexivity | vm_compute; reflexivity |].
  apply Hscenario; vm_compute; reflexivity.
Defined.

(** C10.  The declared range is never compared with the declared total: a
    chunk for an existing session whose declared end is at or beyond the
    declared total is accepted like any other, provided the start is the
    session's offset, the chunk has [end - start + 1] bytes and the total is
    within the limit (the session being stored, with its backing object,
    neither expired nor complete, and the sink taking the bytes).  The
    append takes place: the bytes of the chunk are at the end of the backing
    object, after the bytes it held (the append blob backend starts the
    blob afresh at offset zero), every other object of the storage is as it
    was, and the saved offset, advanced by the size of the chunk, exceeds
    the declared total. *)
Theorem range_beyond_total_accepted cfg env request w s chunk start end_ total :
  named_session request w = Some s →
  is_Some (pk s) →
  is_Some (backing_object w s) →
  AbstractChunkedUpload.expired cfg env s = false →
  status s = UPLOADING →
  write_fault env = None →
  chunk_of request = Some chunk →
  declared_range request = Some (start, end_, total) →
  total ≤ end_ →
  start = offset s →
  size chunk = end_ - start + 1 →
  within_limit cfg total = true →
  ∃ w' response s' bytes,
    ChunkedUploadView._post cfg env request w = (w', Return response)
    ∧ response_status response = 200
    ∧ session w' (upload_id s) = Some s'
    ∧ offset s' = end_ + 1
    ∧ offset s' = offset s + size chunk
    ∧ total < offset s'
    ∧ backing_object w s = Some bytes
    ∧ backing_object w' s' =
        Some ((if USE_AZURE_APPEND_BLOB cfg && bool_decide (offset s = 0)
               then [] else bytes) ++ content chunk)
    ∧ (∀ other, other ≠ file s → storage w' !! other = storage w !! other).
Proof.
  intros Hs Hpk [bytes Hbytes] Hexp Hst Hfault Hchunk Hrange Hbeyond -> Hsize Hlim.
  exists (appended cfg s chunk w),
    {| response_data :=
         ChunkedUploadView.get_response_data cfg (advanced (size chunk) s) request;
       response_status := 200 |},
    (advanced (size chunk) s), bytes.
  split.
  { apply _post_existing_accepted with (end_ := end_) (total := total);
      try done; try (by eexists).
    unfold range_used. by rewrite Hrange. }
  split; [done|]. split.
  { unfold session, appended. cbn. rewrite lookup_insert_eq. reflexivity. }
  split; [cbn; lia|]. split; [done|]. split; [cbn; lia|]. split; [done|].
  unfold backing_object in *. split.
  - cbn. rewrite lookup_insert_eq. unfold sink_base. by rewrite Hbytes.
  - intros other Hother. cbn. by rewrite lookup_insert_ne.
Qed.

(** Ten bytes declared as [bytes 50-59/5], for a session that holds fifty:
    the range ends past the declared total of five bytes, the chunk is
    accepted, and the backing object then holds sixty bytes, with the local
    file backend as with the append blob backend. *)
Lemma range_beyond_total_accepted_witness :
  let request := Sample.append (Some "0f3a") (Some "bytes 50-59/5") 10 in
  let w := Sample.world (Sample.row 50 UPLOADING None) 50 in
  (∃ w' response s',
     ChunkedUploadView._post Sample.cfg (Sample.env 60) request w
       = (w', Return response)
     ∧ response_status response = 200
     ∧ session w' "0f3a" = Some s'
     ∧ offset s' = 60
     ∧ backing_object w s' = Some (Sample.bytes 50)
     ∧ backing_object w' s' = Some (Sample.bytes 50 ++ Sample.bytes 10))
  ∧ (∃ w' response s',
       ChunkedUploadView._post Sample.azure_cfg (Sample.env 60) request w
         = (w', Return response)
       ∧ response_status response = 200
       ∧ session w' "0f3a" = Some s'
       ∧ offset s' = 60
       ∧ backing_object w s' = Some (Sample.bytes 50)
       ∧ backing_object w' s' = Some (Sample.bytes 50 ++ Sample.bytes 10)).
Proof.
  intros request w. split.
  - destruct (range_beyond_total_accepted Sample.cfg (Sample.env 60) request w
                (Sample.row 50 UPLOADING None)
                {| name := "a.txt"; content := Sample.bytes 10 |} 50 59 5)
      as (w' & response & s' & bytes & Hpost & Hok & Hrow & Hoff & _ & _
          & Hbefore & Hafter & _);
      try (vm_compute; reflexivity); try (vm_compute; eauto; fail);
      [vm_compute; discriminate|].
    vm_compute in Hbefore. injection Hbefore as <-.
    exists w', response, s'.
    split; [exact Hpost|]. split; [exact Hok|]. split; [exact Hrow|].
    split; [exact Hoff|]. split; [|exact Hafter].
    vm_compute in Hpost. injection Hpost as <- _.
    vm_compute in Hrow. injection Hrow as <-. vm_compute. reflexivity.
  - destruct (range_beyond_total_accepted Sample.azure_cfg (Sample.env 60)
                request w (Sample.row 50 UPLOADING None)
                {| name := "a.txt"; content := Sample.bytes 10 |} 50 59 5)
      as (w' & response & s' & bytes & Hpost & Hok & Hrow & Hoff & _ & _
          & Hbefore & Hafter & _);
      try (vm_compute; reflexivity); try (vm_compute; eauto; fail);
      [vm_compute; discriminate|].
    vm_compute in Hbefore. injection Hbefore as <-.
    exists w', response, s'.
    split; [exact Hpost|]. split; [exact Hok|]. split; [exact Hrow|].
    split; [exact Hoff|]. split; [|exact Hafter].
    vm_compute in Hpost. injection Hpost as <- _.
    vm_compute in Hrow. injection Hrow as <-. vm_compute. reflexivity.
Defined.

(** ** Failures of the blob sink *)

Lemma append_chunk_fault cfg env chunk chunk_size save_ self w k :
  write_fault env = Some k →
  ∃ w',
    AbstractChunkedUpload.append_chunk cfg env chunk chunk_size save_ (self, w)
      = ((self, w'), Raise IOError)
    ∧ objects w' = objects w.
Proof.
  intros Hfault. unfold AbstractChunkedUpload.append_chunk.
  destruct (USE_AZURE_APPEND_BLOB cfg).
  - unfold AbstractChunkedUpload.append_block, AbstractChunkedUpload.exists_,
      AbstractChunkedUpload.delete_blob, AbstractChunkedUpload.create_append_blob.
    mrun. rewrite Hfault.
    case_bool_decide; cbn; [case_bool_decide; cbn|]; eauto.
  - unfold AbstractChunkedUpload.open_ab_write. mrun. rewrite Hfault. cbn. eauto.
Qed.

(** C6.  When the write to the blob sink fails, in the local-file backend
    as in the append-blob backend, [append_chunk] raises the I/O error to
    its caller and the session is as it was: its offset is not advanced, in
    memory (the object is unchanged) nor in the table. *)
Theorem failed_write_gives_no_credit cfg env chunk chunk_size save_ self w k :
  write_fault env = Some k →
  ∃ self' w',
    AbstractChunkedUpload.append_chunk cfg env chunk chunk_size save_ (self, w)
      = ((self', w'), Raise IOError)
    ∧ offset self' = offset self
    ∧ session w' (upload_id self) = session w (upload_id self)
    ∧ objects w' = objects w.
Proof.
  intros Hfault.
  destruct (append_chunk_fault cfg env chunk chunk_size save_ self w k Hfault)
    as (w' & Happend & Hobjects).
  exists self, w'. unfold session. by rewrite Hobjects.
Qed.

(** The disk fills up after twenty of fifty bytes: the error is raised, the
    session still has offset 50. *)
Lemma failed_write_gives_no_credit_witness :
  let self := Sample.row 50 UPLOADING None in
  let w := Sample.world self 50 in
  ∃ self' w',
    AbstractChunkedUpload.append_chunk Sample.cfg (Sample.faulty_env 20)
        {| name := "a.txt"; content := Sample.bytes 50 |} (Some 50) false (self, w)
      = ((self', w'), Raise IOError)
    ∧ offset self' = 50
    ∧ session w' "0f3a" = session w "0f3a"
    ∧ objects w' = objects w.
Proof.
  intros self w.
  apply (failed_write_gives_no_credit Sample.cfg (Sample.faulty_env 20)
           {| name := "a.txt"; content := Sample.bytes 50 |} (Some 50) false
           self w 20).
  reflexivity.
Defined.

(** Seen from the view: a chunk that would have been accepted, were it not
    for the failure of the sink, makes [post] raise the I/O error (it is not
    a [ChunkedUploadError], so no response is made of it) and leaves every
    persisted session as it was. *)
Lemma post_failed_write cfg env request w s chunk end_ total k :
  permitted request = true →
  named_session request w = Some s →
  chunk_of request = Some chunk →
  declared_range request = Some (offset s, end_, total) →
  size chunk = end_ - offset s + 1 →
  within_limit cfg total = true →
  AbstractChunkedUpload.expired cfg env s = false →
  status s = UPLOADING →
  write_fault env = Some k →
  ∃ w',
    ChunkedUploadView.post cfg env request w = (w', Raise IOError)
    ∧ objects w' = objects w.
Proof.
  intros Hperm Hs Hchunk Hrange Hsize Hlim Hexp Hst Hfault.
  pose proof (_post_existing cfg env request w s chunk _ Hs Hchunk Hrange) as Hpost.
  rewrite Hexp, bool_decide_eq_false_2 in Hpost by congruence.
  destruct (append_chunk_fault cfg env chunk
              (Some (end_ - offset s + 1)) false s w k Hfault) as (w' & Happend & Hobj).
  exists w'. split; [|done].
  apply post_propagates; [done..|].
  rewrite Hpost. unfold Stage.append_and_save.
  rewrite (bind_return _ _ _ _ _ (within_limit_check cfg request total w Hlim)).
  rewrite !bool_decide_eq_true_2 by done. cbn [negb].
  apply bind_raise. unfold call. by rewrite Happend.
Qed.

(** ** Whole uploads *)

Section Uploads.
Import AbstractChunkedUpload ChunkedUploadView.
Context (cfg : Config).

Lemma length_assembled requests :
  Z.of_nat (length (assembled requests)) = chunk_lengths requests.
Proof.
  induction requests as [|r rest IH]; [done|].
  unfold assembled in *. cbn [fmap list_fmap concat chunk_lengths foldr].
  rewrite length_app. fold (chunk_lengths rest). lia.
Qed.

Lemma accepted_return response :
  response_status response = 200 → accepted (Return response).
Proof. intros Hstatus. by exists response. Qed.

Lemma in_order_cons off env request rest :
  in_order cfg off ((env, request) :: rest) = true →
  ∃ chunk end_ total,
    chunk_of request = Some chunk
    ∧ range_used cfg request chunk = Some (off, end_, total)
    ∧ size chunk = end_ - off + 1
    ∧ in_order cfg (off + size chunk) rest = true.
Proof.
  cbn [in_order]. intros Horder.
  destruct (chunk_of request) as [chunk|] eqn:Hchunk; [|done].
  destruct (range_used cfg request chunk) as [[[start end_] total]|] eqn:Hrange;
    [|done].
  apply andb_prop in Horder as [Horder Hrest].
  apply andb_prop in Horder as [Hstart Hsize].
  apply bool_decide_eq_true in Hstart, Hsize. subst start.
  exists chunk, end_, total. by rewrite Hrange.
Qed.

Lemma continues_named first r w s bytes :
  truthy (Some (uuid4_hex first.1)) = true →
  in_progress first w s bytes →
  continues cfg first r = true →
  named_session r.2 w = Some (set__md5 None s)
  ∧ expired cfg r.1 (set__md5 None s) = false.
Proof.
  intros Hid Hprogress Hcont. unfold continues in Hcont.
  apply andb_prop in Hcont as [Hcont Htime].
  apply andb_prop in Hcont as [Hname Huser].
  apply bool_decide_eq_true in Hname, Huser. split.
  - apply named_session_Some. exists (uuid4_hex first.1), s.
    split; [done|]. split; [done|]. split; [apply Hprogress|]. split; [done|].
    unfold sees. rewrite Huser, (progress_owner _ _ _ _ Hprogress).
    unfold get_extra_attrs. destruct (user first.2) as [u|]; [|done].
    destruct (is_authenticated u); [|done]. by apply bool_decide_eq_true.
  - unfold expired, expires_on. cbn. rewrite (progress_created _ _ _ _ Hprogress).
    apply Z.ltb_lt in Htime. apply Z.leb_gt. lia.
Qed.

Lemma continue_upload first rest :
  truthy (Some (uuid4_hex first.1)) = true →
  forallb (admitted cfg) rest = true →
  forallb (continues cfg first) rest = true →
  ∀ w s bytes,
    in_progress first w s bytes →
    in_order cfg (offset s) rest = true →
    ∃ w' outcomes s',
      run cfg rest w = (w', outcomes)
      ∧ Forall accepted outcomes
      ∧ length outcomes = length rest
      ∧ in_progress first w' s' (bytes ++ assembled rest).
Proof.
  intros Hid. induction rest as [|[env request] rest IH];
    intros Hadm Hcont w s bytes Hprogress Horder.
  { exists w, [], s. unfold assembled. cbn. by rewrite app_nil_r. }
  cbn [forallb] in Hadm, Hcont.
  apply andb_prop in Hadm as [Hadm Hadms].
  apply andb_prop in Hcont as [Hcont Hconts].
  destruct (continues_named first (env, request) w s bytes Hid Hprogress Hcont)
    as [Hnamed Hexp].
  apply in_order_cons in Horder
    as (chunk & end_ & total & Hchunk & Hrange & Hsize & Hrest).
  unfold admitted in Hadm. cbn [fst snd] in *. rewrite Hchunk, Hrange in Hadm.
  apply andb_prop in Hadm as [Hlim Hfault]. apply bool_decide_eq_true in Hfault.
  assert (_post cfg env request w =
            (appended cfg (set__md5 None s) chunk w,
             Return {| response_data :=
                         get_response_data cfg
                           (advanced (size chunk) (set__md5 None s)) request;
                       response_status := 200 |})) as Hpost.
  { apply _post_existing_accepted with (end_ := end_) (total := total); try done.
    - apply Hprogress.
    - unfold backing_object. cbn. rewrite (progress_bytes _ _ _ _ Hprogress). eauto.
    - apply Hprogress. }
  set (s' := advanced (size chunk) (set__md5 None s)) in *.
  set (w1 := appended cfg (set__md5 None s) chunk w) in *.
  assert (in_progress first w1 s' (bytes ++ content chunk)) as Hprogress'.
  { destruct Hprogress. split; cbn; try done.
    - rewrite progress_id0. apply lookup_insert_eq.
    - rewrite lookup_insert_eq. f_equal. f_equal.
      unfold sink_base. cbn. rewrite progress_bytes0. cbn.
      destruct (USE_AZURE_APPEND_BLOB cfg); [|done]. cbn.
      case_bool_decide as Hzero; [|done].
      destruct bytes; [done|]. cbn in progress_offset0. lia.
    - rewrite length_app. unfold size. lia. }
  destruct (IH Hadms Hconts w1 s' (bytes ++ content chunk) Hprogress')
    as (w' & outcomes & s'' & Hrun & Hacc & Hlen & Hfinal).
  { cbn. by rewrite Hrest. }
  exists w', (Return {| response_data := get_response_data cfg s' request;
                        response_status := 200 |} :: outcomes), s''.
  cbn [run]. rewrite Hpost, Hrun. split; [done|]. split.
  { constructor; [by apply accepted_return|done]. }
  split; [cbn; by rewrite Hlen|].
  unfold assembled in *. cbn [fmap list_fmap concat].
  unfold chunk_bytes at 1. cbn [snd]. rewrite Hchunk.
  by rewrite app_assoc.
Qed.

(** The first request of an upload, accepted. *)
Lemma start_upload env request rest w :
  truthy (POST request !! "upload_id") = false →
  objects w !! uuid4_hex env = None →
  in_order cfg 0 ((env, request) :: rest) = true →
  admitted cfg (env, request) = true →
  ∃ w' response s chunk,
    _post cfg env request w = (w', Return response)
    ∧ response_status response = 200
    ∧ chunk_of request = Some chunk
    ∧ in_order cfg (offset s) rest = true
    ∧ in_progress (env, request) w' s (content chunk).
Proof.
  intros Hnew Hfree Horder Hadm.
  apply in_order_cons in Horder
    as (chunk & end_ & total & Hchunk & Hrange & Hsize & Hrest).
  unfold admitted in Hadm. cbn [fst snd] in Hadm. rewrite Hchunk, Hrange in Hadm.
  apply andb_prop in Hadm as [Hlim Hfault]. apply bool_decide_eq_true in Hfault.
  eexists _, _, (inserted env w (advanced (size chunk) (new_upload env request chunk))),
    chunk.
  split.
  { by apply _post_new_accepted with (end_ := end_) (total := total). }
  split; [done|]. split; [done|]. split; [done|].
  split; cbn; try done; try apply lookup_insert_eq.
Qed.

End Uploads.

(** C3 (amended).  Take the requests of one upload: the first has no
    [upload_id], the later ones name the upload it started and come from
    the same user.  If they are delivered strictly in order (each start is
    the current offset, each chunk has as many bytes as its range declares),
    every declared total is within the limit, every request arrives before
    the upload expires, and the sink takes the bytes, then every append is
    accepted, and after the last one the backing object is the
    concatenation of the chunks and the session's offset is the sum of
    their lengths, which is the length of the backing object. *)
Theorem in_order_upload_assembles cfg w first rest :
  truthy (Some (uuid4_hex first.1)) = true →
  objects w !! uuid4_hex first.1 = None →
  truthy (POST first.2 !! "upload_id") = false →
  in_order cfg 0 (first :: rest) = true →
  forallb (admitted cfg) (first :: rest) = true →
  forallb (continues cfg first) rest = true →
  ∃ w' outcomes s bytes,
    run cfg (first :: rest) w = (w', outcomes)
    ∧ Forall accepted outcomes
    ∧ length outcomes = length (first :: rest)
    ∧ session w' (uuid4_hex first.1) = Some s
    ∧ backing_object w' s = Some bytes
    ∧ bytes = assembled (first :: rest)
    ∧ offset s = chunk_lengths (first :: rest)
    ∧ offset s = Z.of_nat (length bytes).
Proof.
  intros Hid Hfree Hnew Horder Hadm Hcont. destruct first as [env request].
  cbn [forallb] in Hadm. apply andb_prop in Hadm as [Hadm Hadms].
  destruct (start_upload cfg env request rest w)
    as (w1 & response & s1 & chunk & Hpost & Hok & Hchunk & Hrest & Hprogress);
    try done.
  destruct (continue_upload cfg (env, request) rest Hid Hadms Hcont w1 s1
              (content chunk) Hprogress Hrest)
    as (w' & outcomes & s' & Hrun & Hacc & Hlen & Hfinal).
  assert (content chunk ++ assembled rest = assembled ((env, request) :: rest))
    as Hbytes.
  { unfold assembled. cbn [fmap list_fmap concat]. unfold chunk_bytes at 2.
    cbn [snd]. by rewrite Hchunk. }
  rewrite Hbytes in Hfinal. destruct Hfinal.
  exists w', (Return response :: outcomes), (set__md5 None s'),
    (assembled ((env, request) :: rest)).
  cbn [run]. rewrite Hpost, Hrun. split; [done|]. split.
  { constructor; [by apply accepted_return|done]. }
  split; [cbn; by rewrite Hlen|].
  split; [unfold session; cbn in *; by rewrite progress_row0|].
  split; [done|]. split; [done|]. cbn [offset set__md5].
  rewrite <- length_assembled. done.
Qed.

(** The scenario of the specification: two chunks of 50 bytes, declared as
    [bytes 0-49/100] and [bytes 50-99/100], a minute apart. *)
Lemma in_order_upload_assembles_witness :
  let first := (Sample.env 0, Sample.append None (Some "bytes 0-49/100") 50) in
  let second := (Sample.env 60, Sample.append (Some "0f3a") (Some "bytes 50-99/100") 50) in
  ∃ w' outcomes s bytes,
    run Sample.cfg [first; second] Sample.empty_world = (w', outcomes)
    ∧ Forall accepted outcomes
    ∧ length outcomes = 2%nat
    ∧ session w' "0f3a" = Some s
    ∧ backing_object w' s = Some bytes
    ∧ bytes = Sample.bytes 100
    ∧ offset s = 50 + (50 + 0)
    ∧ offset s = Z.of_nat (length bytes).
Proof.
  intros first second.
  apply (in_order_upload_assembles Sample.cfg Sample.empty_world first [second]);
    vm_compute; reflexivity.
Defined.

(** C3, as stated, fails: requests delivered in order, each with as many
    bytes as it declares, are still refused when the declared total exceeds
    the limit (here 2000 against 1000), and when the session has expired
    (here the second half arrives two days after the first). *)
Lemma in_order_upload_refused :
  let oversized := [(Sample.env 0, Sample.append None (Some "bytes 0-49/2000") 50)] in
  let late :=
    [(Sample.env 0, Sample.append None (Some "bytes 0-49/100") 50);
     (Sample.env 172800, Sample.append (Some "0f3a") (Some "bytes 50-99/100") 50)] in
  (in_order Sample.cfg 0 oversized = true
   ∧ snd (run Sample.cfg oversized Sample.empty_world)
       = [Raise (CUE (SizeLimitExceeded 1000))])
  ∧ (in_order Sample.cfg 0 late = true
     ∧ snd (run Sample.cfg late Sample.empty_world)
       = [Return {| response_data := [("upload_id"%string, VStr "0f3a");
                                      ("offset"%string, VInt 50);
                                      ("expires"%string, VTime 86400)];
                    response_status := 200 |};
          Raise (CUE Expired)])
  ∧ ¬ accepted (Raise (CUE (SizeLimitExceeded 1000)))
  ∧ ¬ accepted (Raise (CUE Expired)).
Proof.
  split; [by vm_compute|]. split; [by vm_compute|].
  split; intros (response & [=] & _).
Qed.

(** ** Completion *)

Section Completion.
Import AbstractChunkedUpload ChunkedUploadBaseView ChunkedUploadCompleteView.
Context `{Hashlib} (cfg : Config) (env : Env).

Lemma named_session_lookup request w s :
  named_session request w = Some s →
  truthy (POST request !! "upload_id") = true
  ∧ ∃ queryset, get_queryset request w = (w, Return queryset)
      ∧ queryset !! default EmptyString (POST request !! "upload_id") = Some s.
Proof.
  unfold named_session.
  destruct (truthy (POST request !! "upload_id")); [|done].
  destruct (get_queryset_run request w) as (q & Hq & _). rewrite Hq.
  intros Hs. split; [done|]. by exists q.
Qed.

Lemma named_session_no_digest request w s :
  named_session request w = Some s → _md5 s = None.
Proof. intros (uid & row & _ & _ & _ & -> & _)%named_session_Some. done. Qed.

(** The digest of a session loaded from the table is computed from its
    backing object. *)
Lemma md5_computed s w bytes :
  _md5 s = None → backing_object w s = Some bytes →
  md5 (s, w) = ((set__md5 (Some (md5_hexdigest bytes)) s, w),
                Return (md5_hexdigest bytes)).
Proof.
  unfold backing_object, AbstractChunkedUpload.md5. intros Hcache Hbytes.
  mrun. rewrite Hcache. cbn. by rewrite Hbytes.
Qed.

Lemma finish_completion request s digest w p :
  pk s = Some p → is_Some (backing_object w s) →
  finish cfg env request (set__md5 digest s) w
  = (completion env s w, Return {| response_data := []; response_status := 200 |}).
Proof.
  intros Hpk [bytes Hbytes]. unfold backing_object in Hbytes. unfold finish.
  cbn zeta.
  erewrite bind_return; last first.
  { unfold call, _save, pre_save, post_save, ChunkedUploadBaseView.save.
    erewrite bind_return by reflexivity. cbn beta.
    erewrite bind_return by reflexivity.
    erewrite bind_return by (by apply save_update with (p := p)).
    reflexivity. }
  cbn beta iota.
  erewrite bind_return; last first.
  { unfold call, get_uploaded_file. mrun. by rewrite Hbytes. }
  reflexivity.
Qed.

(** A completion request that names a session whose backing object is
    there: the checks [_post] makes of it, in their order. *)
Lemma _post_complete_checks request w s bytes :
  named_session request w = Some s →
  backing_object w s = Some bytes →
  _post cfg env request w =
    if do_md5_check cfg && negb (truthy (POST request !! "md5")) then
      (w, Raise (CUE (bad_request "Both 'upload_id' and 'md5' are required")))
    else if bool_decide (status s = COMPLETE) then
      (w, Raise (CUE AlreadyComplete_on_completion))
    else if do_md5_check cfg then
      if negb (bool_decide (Some (md5_hexdigest bytes) = POST request !! "md5"))
      then (w, Raise (CUE ChecksumMismatch))
      else finish cfg env request (set__md5 (Some (md5_hexdigest bytes)) s) w
    else finish cfg env request s w.
Proof.
  intros Hs Hbytes.
  pose proof (named_session_no_digest _ _ _ Hs) as Hcache.
  apply named_session_lookup in Hs as (Hid & q & Hq & Hlookup).
  unfold _post. rewrite Hid. cbn [negb orb].
  destruct (do_md5_check cfg) eqn:Hcheck; cbn [andb].
  - destruct (truthy (POST request !! "md5")) eqn:Hmd5; cbn [negb]; [|done].
    rewrite (bind_return _ _ w w tt) by done.
    rewrite (bind_return _ _ _ _ _ Hq).
    unfold get_object_or_404. rewrite Hlookup.
    rewrite (bind_return _ _ w w s) by done.
    rewrite (bind_return _ _ w w tt) by done.
    unfold is_valid_chunked_upload. case_bool_decide as Hst;
      [by rewrite (bind_raise _ _ w w _) by done|].
    rewrite (bind_return _ _ w w tt) by done.
    unfold md5_check.
    case_bool_decide as Hsum; cbn [negb].
    + erewrite bind_return; last first.
      { unfold call. erewrite bind_return by (by apply md5_computed).
        rewrite bool_decide_eq_true_2 by done. reflexivity. }
      reflexivity.
    + apply bind_raise. unfold call.
      erewrite bind_return by (by apply md5_computed).
      by rewrite bool_decide_eq_false_2 by done.
  - rewrite (bind_return _ _ w w tt) by done.
    rewrite (bind_return _ _ _ _ _ Hq).
    unfold get_object_or_404. rewrite Hlookup.
    rewrite (bind_return _ _ w w s) by done.
    rewrite (bind_return _ _ w w tt) by done.
    unfold is_valid_chunked_upload. case_bool_decide as Hst;
      [by rewrite (bind_raise _ _ w w _) by done|].
    rewrite (bind_return _ _ w w tt) by done.
    by rewrite (bind_return _ _ w w (s, tt)) by done.
Qed.

(** The same for a session that has its primary key, to the end. *)
Lemma _post_complete request w s bytes :
  named_session request w = Some s →
  is_Some (pk s) →
  backing_object w s = Some bytes →
  _post cfg env request w =
    if do_md5_check cfg && negb (truthy (POST request !! "md5")) then
      (w, Raise (CUE (bad_request "Both 'upload_id' and 'md5' are required")))
    else if bool_decide (status s = COMPLETE) then
      (w, Raise (CUE AlreadyComplete_on_completion))
    else if do_md5_check cfg
            && negb (bool_decide (Some (md5_hexdigest bytes) = POST request !! "md5"))
    then (w, Raise (CUE ChecksumMismatch))
    else (completion env s w,
          Return {| response_data := []; response_status := 200 |}).
Proof.
  intros Hs [p Hpk] Hbytes.
  rewrite (_post_complete_checks request w s bytes) by done.
  pose proof (named_session_no_digest _ _ _ Hs) as Hcache.
  destruct (do_md5_check cfg); cbn [andb].
  - destruct (negb (truthy (POST request !! "md5"))); [done|].
    case_bool_decide; [done|]. case_bool_decide; cbn [negb]; [|done].
    by apply finish_completion with (p := p); [|eexists].
  - case_bool_decide; [done|].
    rewrite <- (finish_completion request s None w p) by (done || by eexists).
    by rewrite <- Hcache; destruct s.
Qed.

Lemma bind_inv {S A B} (m : M S A) (k : A → M S B) s s'' b :
  bind m k s = (s'', Return b) →
  ∃ s' a, m s = (s', Return a) ∧ k a s' = (s'', Return b).
Proof.
  unfold bind. destruct (m s) as [s' [a|e]]; [|done]. intros Hk. by exists s', a.
Qed.

(** What a successful save leaves behind, whether it inserts or updates. *)
Lemma _save_inv request self w self' w' :
  call self (_save env request) w = (w', Return (self', tt)) →
  storage w' = storage w ∧ completions w' = completions w
  ∧ objects w' !! upload_id self = Some (set__md5 None self')
  ∧ upload_id self' = upload_id self ∧ status self' = status self
  ∧ completed_on self' = completed_on self ∧ offset self' = offset self
  ∧ file self' = file self ∧ filename self' = filename self.
Proof.
  unfold call, _save, pre_save, post_save, ChunkedUploadBaseView.save.
  erewrite bind_return by reflexivity. cbn beta.
  erewrite bind_return by reflexivity.
  destruct (pk self) as [p|] eqn:Hpk.
  - erewrite bind_return by (by apply save_update with (p := p)).
    cbv [ret]. intros [= <- <-]. cbn. by rewrite lookup_insert_eq.
  - destruct (objects w !! upload_id self) as [row|] eqn:Hrow.
    + erewrite bind_raise by (by apply save_taken; [|eexists]). done.
    + erewrite bind_return by (by apply save_insert).
      cbv [ret]. intros [= <- <-]. cbn. by rewrite lookup_insert_eq.
Qed.

Lemma get_uploaded_file_inv self w self' w' uploaded_file :
  call self get_uploaded_file w = (w', Return (self', uploaded_file)) →
  w' = w ∧ self' = self ∧ uploaded_file = handle self
  ∧ is_Some (backing_object w self).
Proof.
  unfold call, get_uploaded_file, backing_object. mrun.
  destruct (storage w !! file self) as [bytes|]; [|done].
  intros [= <- <- <-]. eauto.
Qed.

Lemma md5_check_inv md5 s w s' w' :
  _md5 s = None →
  call s (md5_check md5) w = (w', Return (s', tt)) →
  w' = w ∧ ∃ bytes,
    backing_object w s = Some bytes ∧ md5 = Some (md5_hexdigest bytes)
    ∧ s' = set__md5 (Some (md5_hexdigest bytes)) s.
Proof.
  intros Hcache. unfold call, md5_check, backing_object.
  destruct (storage w !! file s) as [bytes|] eqn:Hbytes.
  - erewrite bind_return by (by apply md5_computed).
    case_bool_decide as Hsum; [|done]. cbv [negb ret].
    intros [= <- <-]. split; [done|]. by exists bytes.
  - unfold AbstractChunkedUpload.md5. mrun. rewrite Hcache. cbn.
    by rewrite Hbytes.
Qed.

Lemma complete_success_inv request w w' response :
  _post cfg env request w = (w', Return response) →
  ∃ s s' bytes,
    named_session request w = Some s
    ∧ status s = UPLOADING
    ∧ backing_object w s = Some bytes
    ∧ (do_md5_check cfg = true → checksum_matches request bytes)
    ∧ session w' (upload_id s) = Some s'
    ∧ status s' = COMPLETE
    ∧ completed_on s' = Some (now env)
    ∧ offset s' = offset s ∧ file s' = file s ∧ filename s' = filename s
    ∧ completions w' = handle s' :: completions w
    ∧ storage w' = storage w
    ∧ response = {| response_data := []; response_status := 200 |}.
Proof.
  unfold _post. intros Hpost.
  apply bind_inv in Hpost as (w1 & [] & Hparams & Hpost).
  assert (w1 = w ∧ truthy (POST request !! "upload_id") = true
          ∧ (do_md5_check cfg = true → truthy (POST request !! "md5") = true))
    as (Hw & Hid & Hmd5).
  { destruct (do_md5_check cfg), (truthy (POST request !! "upload_id")),
      (truthy (POST request !! "md5")); cbv [negb orb raise ret] in Hparams; simplify_eq;
      done. }
  subst w1. clear Hparams.
  destruct (get_queryset_run request w) as (q & Hq & _).
  rewrite (bind_return _ _ _ _ _ Hq) in Hpost.
  apply bind_inv in Hpost as (w1 & s & Hlookup & Hpost).
  unfold get_object_or_404 in Hlookup.
  destruct (q !! default EmptyString (POST request !! "upload_id")) as [s0|] eqn:Hs;
    [|done].
  cbv [ret] in Hlookup. injection Hlookup as <- <-. rename s0 into s.
  assert (named_session request w = Some s) as Hnamed.
  { unfold named_session. by rewrite Hid, Hq. }
  pose proof (named_session_no_digest _ _ _ Hnamed) as Hcache.
  rewrite (bind_return _ _ w w tt) in Hpost by done.
  apply bind_inv in Hpost as (w1 & [] & Hvalid & Hpost).
  unfold is_valid_chunked_upload in Hvalid.
  case_bool_decide as Hst; [done|]. cbv [ret] in Hvalid. injection Hvalid as <-.
  assert (status s = UPLOADING) as Hup by (by destruct (status s)).
  apply bind_inv in Hpost as (w1 & [s1 []] & Hcheck & Hpost).
  assert (w1 = w ∧ (∃ digest, s1 = set__md5 digest s)
          ∧ (do_md5_check cfg = true →
             ∃ bytes, backing_object w s = Some bytes
                      ∧ checksum_matches request bytes))
    as (-> & [digest ->] & Hsum).
  { destruct (do_md5_check cfg).
    - apply md5_check_inv in Hcheck as (-> & bytes & Hbytes & Hmatch & ->);
        [|done].
      split; [done|]. split; [by eexists|]. intros _. exists bytes.
      split; [done|]. split; [done|]. by apply Hmd5.
    - cbv [ret] in Hcheck. injection Hcheck as <- <-.
      split; [done|]. split; [|done]. exists None. by rewrite <- Hcache; destruct s. }
  apply bind_inv in Hpost as (w2 & [s2 []] & Hsave & Hpost).
  apply _save_inv in Hsave
    as (Hstorage & Hcompletions & Hrow & Hid2 & Hst2 & Hdone2 & Hoff2 & Hfile2 & Hname2).
  apply bind_inv in Hpost as (w3 & [s3 uploaded_file] & Hopen & Hpost).
  apply get_uploaded_file_inv in Hopen as (-> & -> & -> & [bytes Hbytes]).
  cbv [on_completion modify bind ret] in Hpost. injection Hpost as <- <-.
  unfold backing_object in Hbytes. rewrite Hfile2, Hstorage in Hbytes.
  cbn in *.
  exists s, (set__md5 None s2), bytes.
  split; [done|]. split; [done|]. split; [done|]. split.
  { intros Hon. destruct (Hsum Hon) as (bytes' & Hbytes' & Hmatch).
    unfold backing_object in Hbytes'. by simplify_eq. }
  split; [unfold session; cbn; by rewrite Hrow|].
  cbn. by rewrite Hcompletions.
Qed.

End Completion.

(** C4.  With checksum verification enabled, a completion request for a
    session that is Uploading, whose supplied checksum differs from the
    digest of the whole backing object, fails with ChecksumMismatch and
    changes nothing: the world after the request is the world before it, so
    the session is still Uploading with no completion time; [post] answers
    400 with the detail of the error. *)
Theorem checksum_mismatch_rejected `{Hashlib} cfg env request w s bytes md5 :
  do_md5_check cfg = true →
  named_session request w = Some s →
  status s = UPLOADING →
  backing_object w s = Some bytes →
  POST request !! "md5" = Some md5 →
  truthy (Some md5) = true →
  md5 ≠ md5_hexdigest bytes →
  ChunkedUploadCompleteView._post cfg env request w =
    (w, Raise (CUE ChecksumMismatch))
  ∧ named_session request w = Some s
  ∧ (permitted request = true →
     ChunkedUploadCompleteView.post cfg env request w =
       (w, Return {| response_data :=
                       [("detail"%string, VStr "md5 checksum does not match")];
                     response_status := 400 |})).
Proof.
  intros Hcheck Hs Hst Hbytes Hmd5 Hgiven Hdiffer.
  assert (ChunkedUploadCompleteView._post cfg env request w =
            (w, Raise (CUE ChecksumMismatch))) as Hpost.
  { rewrite (_post_complete_checks cfg env request w s bytes) by done.
    rewrite Hcheck, Hmd5, Hgiven. cbn [negb andb].
    rewrite bool_decide_eq_false_2 by congruence.
    rewrite bool_decide_eq_false_2 by congruence. done. }
  split; [done|]. split; [done|]. intros Hperm.
  exact (post_error_response _ request w w ChecksumMismatch Hperm Hpost).
Qed.

(** The upload of a hundred bytes, completed with the checksum of some
    other content. *)
Lemma checksum_mismatch_rejected_witness :
  let request := Sample.complete "0f3a" "99" in
  let w := Sample.world (Sample.row 100 UPLOADING None) 100 in
  ChunkedUploadCompleteView._post (H := Sample.length_digest)
      Sample.cfg (Sample.env 120) request w
    = (w, Raise (CUE ChecksumMismatch))
  ∧ session w "0f3a" = Some (Sample.row 100 UPLOADING None).
Proof.
  intros request w.
  destruct (checksum_mismatch_rejected (H := Sample.length_digest)
              Sample.cfg (Sample.env 120) request w
              (Sample.row 100 UPLOADING None) (Sample.bytes 100) "99")
    as (Hpost & _ & _);
    try (vm_compute; reflexivity); [vm_compute; discriminate|].
  split; [exact Hpost|]. vm_compute. reflexivity.
Defined.

(** C8.  After every successful completion request the session is
    persisted with status Complete and the current time as completion time,
    and the completion hook has been called, last, with a handle on the
    session's backing object, which the storage holds: opened for reading,
    named after the upload, and reporting the session's offset as its
    size. *)
Theorem completion_marks_and_hands_over `{Hashlib} cfg env request w w' response :
  ChunkedUploadCompleteView._post cfg env request w = (w', Return response) →
  ∃ s s',
    named_session request w = Some s
    ∧ session w' (upload_id s) = Some s'
    ∧ status s' = COMPLETE
    ∧ completed_on s' = Some (now env)
    ∧ offset s' = offset s
    ∧ completions w' =
        {| uf_file := file s'; uf_mode := "rb"; uf_name := filename s';
           uf_size := offset s' |} :: completions w
    ∧ is_Some (backing_object w' s')
    ∧ response_status response = 200.
Proof.
  intros Hpost.
  apply complete_success_inv in Hpost
    as (s & s' & bytes & Hs & _ & Hbytes & _ & Hrow & Hst & Hdone & Hoff
        & Hfile & _ & Hhook & Hstorage & ->).
  exists s, s'. repeat (split; [done|]). split; [|done].
  unfold backing_object in *. rewrite Hstorage, Hfile. eauto.
Qed.

(** The upload of a hundred bytes, completed with its checksum. *)
Lemma completion_marks_and_hands_over_witness :
  let request := Sample.complete "0f3a" "100" in
  let w := Sample.world (Sample.row 100 UPLOADING None) 100 in
  let w' := completion (Sample.env 120) (Sample.row 100 UPLOADING None) w in
  ∃ s s',
    named_session request w = Some s
    ∧ session w' (upload_id s) = Some s'
    ∧ status s' = COMPLETE
    ∧ completed_on s' = Some 120
    ∧ offset s' = offset s
    ∧ completions w' =
        {| uf_file := file s'; uf_mode := "rb"; uf_name := filename s';
           uf_size := offset s' |} :: completions w
    ∧ is_Some (backing_object w' s')
    ∧ 200 = 200.
Proof.
  intros request w w'.
  apply (completion_marks_and_hands_over (H := Sample.length_digest)
           Sample.cfg (Sample.env 120) request w w'
           {| response_data := []; response_status := 200 |}).
  vm_compute. reflexivity.
Defined.

(** What a completion request leaves when the storage does not hold the
    backing object of the session it names.  With checksum verification the
    digest cannot be computed and nothing is changed; without it the row is
    saved as Complete before the object fails to open. *)
Lemma completion_without_object `{Hashlib} cfg env request w s p :
  named_session request w = Some s →
  pk s = Some p →
  backing_object w s = None →
  status s ≠ COMPLETE →
  (do_md5_check cfg = true → truthy (POST request !! "md5") = true) →
  ChunkedUploadCompleteView._post cfg env request w =
    if do_md5_check cfg then (w, Raise IOError)
    else (set_objects (<[upload_id s := completed env s]> (objects w)) w,
          Raise IOError).
Proof.
  intros Hs Hpk Hnone Hst Hgiven.
  pose proof (named_session_no_digest _ _ _ Hs) as Hcache.
  apply named_session_lookup in Hs as (Hid & q & Hq & Hlookup).
  unfold backing_object in Hnone.
  unfold ChunkedUploadCompleteView._post. rewrite Hid. cbn [negb orb].
  destruct (do_md5_check cfg) eqn:Hcheck.
  - rewrite (Hgiven eq_refl). cbn [negb].
    rewrite (bind_return _ _ w w tt) by done.
    rewrite (bind_return _ _ _ _ _ Hq).
    unfold ChunkedUploadBaseView.get_object_or_404. rewrite Hlookup.
    rewrite (bind_return _ _ w w s) by done.
    rewrite (bind_return _ _ w w tt) by done.
    unfold ChunkedUploadCompleteView.is_valid_chunked_upload.
    rewrite bool_decide_eq_false_2 by done.
    rewrite (bind_return _ _ w w tt) by done.
    apply bind_raise. unfold call, ChunkedUploadCompleteView.md5_check,
      AbstractChunkedUpload.md5. mrun. rewrite Hcache. cbn. by rewrite Hnone.
  - rewrite (bind_return _ _ w w tt) by done.
    rewrite (bind_return _ _ _ _ _ Hq).
    unfold ChunkedUploadBaseView.get_object_or_404. rewrite Hlookup.
    rewrite (bind_return _ _ w w s) by done.
    rewrite (bind_return _ _ w w tt) by done.
    unfold ChunkedUploadCompleteView.is_valid_chunked_upload.
    rewrite bool_decide_eq_false_2 by done.
    rewrite (bind_return _ _ w w tt) by done.
    rewrite (bind_return _ _ w w (s, tt)) by done.
    erewrite bind_return; last first.
    { unfold call, ChunkedUploadBaseView._save, ChunkedUploadBaseView.pre_save,
        ChunkedUploadBaseView.post_save, ChunkedUploadBaseView.save.
      erewrite bind_return by reflexivity. cbn beta.
      erewrite bind_return by reflexivity.
      erewrite bind_return by (by apply save_update with (p := p)).
      reflexivity. }
    cbn beta iota. apply bind_raise.
    unfold call, AbstractChunkedUpload.get_uploaded_file. mrun.
    by rewrite Hnone.
Qed.

(** C2 (amended).  On a table whose rows have their primary keys, a
    completion request succeeds if and only if it names a session that is
    not already complete and whose backing object the storage holds, and
    either checksum verification is disabled or the supplied checksum is
    the digest of that object; when it succeeds the session is persisted
    with status Complete and the current time as completion time.  For a
    request that names a session whose backing object the storage holds,
    that condition decides everything: if it holds, the request returns and
    the world after it is the world before it with the session saved as
    Complete, completed now, and the hook called, which is another world;
    if it does not hold, the request fails with a [ChunkedUploadError] and
    the world after it is the world before it.  Whether the session has
    expired plays no part: expiration is checked on chunk append only. *)
Theorem completion_succeeds_iff `{Hashlib} cfg env request w :
  (∀ uid row, objects w !! uid = Some row → is_Some (pk row)) →
  ((∃ w' response,
      ChunkedUploadCompleteView._post cfg env request w = (w', Return response))
   ↔ (∃ s bytes,
        named_session request w = Some s
        ∧ status s ≠ COMPLETE
        ∧ backing_object w s = Some bytes
        ∧ (do_md5_check cfg = true → checksum_matches request bytes)))
  ∧ (∀ w' response,
       ChunkedUploadCompleteView._post cfg env request w = (w', Return response) →
       ∃ s s', named_session request w = Some s
               ∧ session w' (upload_id s) = Some s'
               ∧ status s' = COMPLETE
               ∧ completed_on s' = Some (now env))
  ∧ (∀ s bytes,
       named_session request w = Some s →
       backing_object w s = Some bytes →
       let admissible :=
         status s ≠ COMPLETE
         ∧ (do_md5_check cfg = true → checksum_matches request bytes) in
       (admissible →
          ChunkedUploadCompleteView._post cfg env request w =
            (completion env s w,
             Return {| response_data := []; response_status := 200 |}))
       ∧ (¬ admissible →
          ∃ error,
            ChunkedUploadCompleteView._post cfg env request w =
              (w, Raise (CUE error)))
       ∧ completion env s w ≠ w
       ∧ session (completion env s w) (upload_id s) = Some (completed env s)
       ∧ status (completed env s) = COMPLETE
       ∧ completed_on (completed env s) = Some (now env)).
Proof.
  intros Hkeys.
  assert (∀ s, named_session request w = Some s → is_Some (pk s)) as Hpk.
  { intros s (uid & row & _ & _ & Hrow & -> & _)%named_session_Some.
    apply (Hkeys uid row Hrow). }
  split; [split|split].
  - intros (w' & response & Hpost).
    apply complete_success_inv in Hpost
      as (s & s' & bytes & Hs & Hst & Hbytes & Hsum & _).
    exists s, bytes. split; [done|]. split; [congruence|]. done.
  - intros (s & bytes & Hs & Hst & Hbytes & Hsum).
    eexists _, _.
    rewrite (_post_complete cfg env request w s bytes) by auto.
    rewrite bool_decide_eq_false_2 by done.
    destruct (do_md5_check cfg); cbn [andb]; [|done].
    destruct (Hsum eq_refl) as [Hmd5 ->]. cbn [negb].
    by rewrite bool_decide_eq_true_2 by done.
  - intros w' response Hpost.
    apply complete_success_inv in Hpost
      as (s & s' & bytes & Hs & _ & _ & _ & Hrow & Hst & Hdone & _).
    by exists s, s'.
  - intros s bytes Hs Hbytes admissible. subst admissible.
    pose proof (_post_complete cfg env request w s bytes Hs (Hpk s Hs) Hbytes)
      as Hpost.
    split; [|split; [|split; [|split; [|done]]]].
    + intros [Hst Hsum]. rewrite Hpost.
      rewrite bool_decide_eq_false_2 by done.
      destruct (do_md5_check cfg); cbn [andb]; [|done].
      destruct (Hsum eq_refl) as [Hmd5 ->]. cbn [negb].
      by rewrite bool_decide_eq_true_2 by done.
    + intros Hnot. rewrite Hpost.
      destruct (do_md5_check cfg) eqn:Hcheck; cbn [andb].
      * destruct (truthy (POST request !! "md5")) eqn:Hgiven; cbn [negb];
          [|by eexists].
        case_bool_decide as Hst; [by eexists|].
        case_bool_decide as Hsum; cbn [negb]; [|by eexists].
        destruct Hnot. split; [done|]. intros _. by split.
      * case_bool_decide as Hst; [by eexists|].
        destruct Hnot. by split.
    + intros Hsame. apply (f_equal completions) in Hsame. cbn in Hsame.
      apply (f_equal length) in Hsame. cbn in Hsame. lia.
    + unfold session, completion. cbn. rewrite lookup_insert_eq. reflexivity.
Qed.

(** The upload of a hundred bytes is completed, with its checksum, a
    minute after the last chunk; with the checksum of something else, the
    request fails and the world is as it was. *)
Lemma completion_succeeds_iff_witness :
  let w := Sample.world (Sample.row 100 UPLOADING None) 100 in
  ChunkedUploadCompleteView._post (H := Sample.length_digest)
      Sample.cfg (Sample.env 120) (Sample.complete "0f3a" "100") w
    = (completion (Sample.env 120) (Sample.row 100 UPLOADING None) w,
       Return {| response_data := []; response_status := 200 |})
  ∧ ∃ error,
      ChunkedUploadCompleteView._post (H := Sample.length_digest)
        Sample.cfg (Sample.env 120) (Sample.complete "0f3a" "99") w
      = (w, Raise (CUE error)).
Proof.
  intros w.
  assert (∀ uid row, objects w !! uid = Some row → is_Some (pk row)) as Hkeys.
  { intros uid row Hrow. cbn in Hrow.
    apply lookup_singleton_Some in Hrow as [_ <-]. by eexists. }
  split.
  - destruct (completion_succeeds_iff (H := Sample.length_digest)
                Sample.cfg (Sample.env 120) (Sample.complete "0f3a" "100") w Hkeys)
      as (_ & _ & Hstored).
    destruct (Hstored (Sample.row 100 UPLOADING None) (Sample.bytes 100))
      as (Hthen & _); [vm_compute; reflexivity|vm_compute; reflexivity|].
    apply Hthen. split; [discriminate|]. intros _. split; vm_compute; reflexivity.
  - destruct (completion_succeeds_iff (H := Sample.length_digest)
                Sample.cfg (Sample.env 120) (Sample.complete "0f3a" "99") w Hkeys)
      as (_ & _ & Hstored).
    destruct (Hstored (Sample.row 100 UPLOADING None) (Sample.bytes 100))
      as (_ & Helse & _); [vm_compute; reflexivity|vm_compute; reflexivity|].
    apply Helse. intros [_ Hsum]. destruct (Hsum eq_refl) as [Hmd5 _].
    vm_compute in Hmd5. discriminate.
Defined.

(** C2, as stated, fails: the session created at time 0 expired after one
    day, and two days later its completion, with the right checksum, still
    succeeds and marks it Complete; the same session, at the same time,
    refuses a chunk as expired. *)
Lemma expired_session_completes :
  let s := Sample.row 100 UPLOADING None in
  let w := Sample.world s 100 in
  let late := Sample.env 172800 in
  AbstractChunkedUpload.expired Sample.cfg late s = true
  ∧ ChunkedUploadCompleteView._post (H := Sample.length_digest)
      Sample.cfg late (Sample.complete "0f3a" "100") w
    = (completion late s w,
       Return {| response_data := []; response_status := 200 |})
  ∧ session (completion late s w) "0f3a"
    = Some (Sample.row 100 COMPLETE (Some 172800))
  ∧ ChunkedUploadView._post Sample.cfg late
      (Sample.append (Some "0f3a") (Some "bytes 100-149/150") 50) w
    = (w, Raise (CUE Expired)).
Proof. vm_compute. repeat split. Qed.

(** ** Consistency is an invariant of the views *)

Section Triples.
Context {S : Type}.
Implicit Types (P E : S → Prop).

Lemma triple_ret {A} P (a : A) (Q : A → S → Prop) E :
  (∀ s, P s → Q a s) → triple P (ret a) Q E.
Proof. intros HQ s HP. by apply HQ. Qed.

Lemma triple_raise {A} P e (Q : A → S → Prop) E :
  (∀ s, P s → E s) → triple P (raise e) Q E.
Proof. intros HE s HP. by apply HE. Qed.

Lemma triple_bind {A B} P (m : M S A) (k : A → M S B) R Q E :
  triple P m R E → (∀ a, triple (R a) (k a) Q E) → triple P (bind m k) Q E.
Proof.
  intros Hm Hk s HP. specialize (Hm s HP). unfold bind.
  destruct (m s) as [s' [a|e]]; [|done]. by apply Hk.
Qed.

Lemma triple_get P (Q : S → S → Prop) E :
  (∀ s, P s → Q s s) → triple P get Q E.
Proof. intros HQ s HP. by apply HQ. Qed.

Lemma triple_modify P f (Q : unit → S → Prop) E :
  (∀ s, P s → Q tt (f s)) → triple P (modify f) Q E.
Proof. intros HQ s HP. by apply HQ. Qed.


End Triples.

Section Invariant.
Import AbstractChunkedUpload.
Context (cfg : Config) (env : Env).

Lemma consistent_storage w st :
  (∀ n, is_Some (storage w !! n) → is_Some (st !! n)) →
  consistent w → consistent (set_storage st w).
Proof.
  intros Hgrows Hw uid row Hrow. destruct (Hw uid row Hrow) as (? & ? & ?).
  repeat split; [done..|]. by apply Hgrows.
Qed.

Lemma ready_storage self w st :
  (∀ n, is_Some (storage w !! n) → is_Some (st !! n)) →
  ready (self, w) → ready (self, set_storage st w).
Proof.
  intros Hgrows [Hw Hfile]. split; [by apply consistent_storage|].
  by apply Hgrows.
Qed.

Lemma insert_grows (st : gmap string (list byte)) k v n :
  is_Some (st !! n) → is_Some (<[k := v]> st !! n).
Proof.
  intros Hn. destruct (decide (k = n)) as [->|Hne].
  - rewrite lookup_insert_eq. eauto.
  - by rewrite lookup_insert_ne.
Qed.

Lemma ready_row self row w :
  upload_id row = upload_id self → file row = file self → is_Some (pk row) →
  ready (self, w) →
  consistent (set_objects (<[upload_id self := row]> (objects w)) w).
Proof.
  intros Hid Hfile Hpk [Hw Hhas] uid row' Hrow'. cbn in *.
  destruct (decide (upload_id self = uid)) as [<-|Hne].
  - rewrite lookup_insert_eq in Hrow'. injection Hrow' as <-.
    by rewrite Hfile.
  - rewrite lookup_insert_ne in Hrow' by done. by apply Hw.
Qed.

Lemma save_keeps : keeps ready (save env).
Proof.
  intros [self w] Hready. unfold save. mrun.
  destruct (pk self) as [p|] eqn:Hpk.
  - split; [|apply Hready]. cbn.
    by apply (ready_row self).
  - destruct (objects w !! upload_id self); [done|]. cbn.
    split; [|apply Hready].
    exact (ready_row self
             (set__md5 None
                (set_created_on (now env) (set_pk (Some (next_pk w)) self)))
             w eq_refl eq_refl (ex_intro _ _ eq_refl) Hready).
Qed.

Lemma _save_keeps request :
  keeps ready (ChunkedUploadBaseView._save env request).
Proof.
  unfold ChunkedUploadBaseView._save.
  apply triple_bind with (R := λ _, ready); [by intros s Hs|]. intros self.
  apply triple_bind with (R := λ _, ready); [by intros s Hs|]. intros [].
  apply triple_bind with (R := λ _, ready); [apply save_keeps|]. intros [].
  by intros s Hs.
Qed.

Lemma ready_frame self self' w w' :
  file self' = file self → objects w' = objects w →
  (∀ n, is_Some (storage w !! n) → is_Some (storage w' !! n)) →
  ready (self, w) → ready (self', w').
Proof.
  intros Hfile Hobjects Hgrows [Hw Hhas]. split; cbn in *.
  - intros uid row Hrow. rewrite Hobjects in Hrow.
    destruct (Hw uid row Hrow) as (? & ? & ?). repeat split; [done..|].
    by apply Hgrows.
  - rewrite Hfile. by apply Hgrows.
Qed.

Ltac grows name :=
  let n := fresh "n" in
  let Hn := fresh "Hn" in
  intros n Hn; cbn;
  destruct (decide (name = n)) as [<-|];
  [rewrite lookup_insert_eq; eauto
  |by rewrite ?lookup_insert_ne, ?lookup_delete_ne by done].

(** The write of [append_chunk], with the update of the offset. *)
Lemma append_chunk_write_keeps chunk chunk_size self w :
  ready (self, w) →
  ready (append_chunk cfg env chunk chunk_size false (self, w)).1.
Proof.
  intros Hready. unfold append_chunk.
  destruct (USE_AZURE_APPEND_BLOB cfg).
  - unfold append_block, exists_, delete_blob, create_append_blob. mrun.
    case_bool_decide as Hzero; cbn.
    + case_bool_decide as Hfound; cbn; rewrite lookup_insert_eq;
        (destruct (write_fault env); cbn; [|destruct chunk_size; cbn]);
        (eapply ready_frame; [| |
           |exact Hready]; [done|done|grows (file self)]).
    + destruct (write_fault env); [done|].
      destruct (storage w !! file self) as [old|] eqn:Hold; [|done]. cbn.
      destruct chunk_size; cbn;
        (eapply ready_frame; [| | |exact Hready]; [done|done|grows (file self)]).
  - unfold open_ab_write. mrun.
    destruct (write_fault env); cbn; [|destruct chunk_size; cbn];
      (eapply ready_frame; [| | |exact Hready]; [done|done|grows (file self)]).
Qed.

Lemma append_chunk_keeps chunk chunk_size :
  keeps ready (append_chunk cfg env chunk chunk_size false).
Proof.
  intros [self w] Hready.
  pose proof (append_chunk_write_keeps chunk chunk_size self w Hready) as Hkept.
  by destruct (append_chunk cfg env chunk chunk_size false (self, w))
    as [s' [[]|e]].
Qed.

Lemma ready_consistent s : ready s → consistent s.2.
Proof. by intros [? ?]. Qed.

Lemma call_keeps {A} self (m : Method A) :
  keeps ready m →
  triple (λ w, ready (self, w)) (call self m) (λ r w', ready (r.1, w'))
    consistent.
Proof.
  intros Hm w Hready. specialize (Hm (self, w) Hready). unfold call.
  destruct (m (self, w)) as [[self' w'] [a|e]]; [done|].
  by apply ready_consistent in Hm.
Qed.

Lemma resolve_ready request chunk :
  triple consistent (Stage.resolve cfg env request chunk)
    (λ chunked_upload w, ready (chunked_upload, w)) consistent.
Proof.
  intros w Hw. unfold Stage.resolve.
  destruct (truthy (POST request !! "upload_id")).
  - destruct (get_queryset_run request w) as (q & Hq & Hrows).
    rewrite (bind_return _ _ _ _ _ Hq).
    unfold ChunkedUploadBaseView.get_object_or_404.
    destruct (q !! default EmptyString (POST request !! "upload_id"))
      as [s|] eqn:Hs; [|done].
    rewrite (bind_return _ _ w w s) by done.
    unfold ChunkedUploadView.is_valid_chunked_upload.
    destruct (expired cfg env s); [done|]. case_bool_decide; [done|].
    cbn. split; [done|]. cbn.
    apply Hrows in Hs as (row & Hrow & -> & _). by apply (Hw _ _ Hrow).
  - cbn. eapply ready_frame with (self := new_upload env request chunk)
      (w' := with_empty_file env w) (w := with_empty_file env w);
      [done|done|done|].
    split; cbn.
    + apply consistent_storage; [|done]. intros n. apply insert_grows.
    + rewrite lookup_insert_eq. eauto.
Qed.

Lemma append_and_save_consistent request chunk chunked_upload range :
  triple (λ w, ready (chunked_upload, w))
    (Stage.append_and_save cfg env request chunk chunked_upload range)
    (λ _, consistent) consistent.
Proof.
  destruct range as [[start end_] total]. unfold Stage.append_and_save.
  eapply triple_bind with (R := λ _ w, ready (chunked_upload, w)).
  { intros w Hready. destruct (ChunkedUploadView.get_max_bytes cfg request);
      [|done]. destruct (_ <? _); [by apply ready_consistent in Hready|done]. }
  intros [].
  destruct (negb (bool_decide (offset chunked_upload = start)));
    [intros w Hready; by apply ready_consistent in Hready|].
  destruct (negb (bool_decide (size chunk = end_ - start + 1)));
    [intros w Hready; by apply ready_consistent in Hready|].
  eapply triple_bind; [apply call_keeps, append_chunk_keeps|].
  intros [self1 []]. cbn [fst].
  eapply triple_bind; [apply call_keeps, _save_keeps|].
  intros [self2 []]. cbn [fst].
  intros w Hready. by apply ready_consistent in Hready.
Qed.

End Invariant.

(** Every chunk-append request, accepted or not, takes a consistent world to
    a consistent world. *)
Lemma upload_keeps_consistent cfg env request :
  keeps consistent (ChunkedUploadView._post cfg env request).
Proof.
  rewrite _post_stages. destruct (chunk_of request) as [chunk|]; [|by intros w Hw].
  eapply triple_bind with (R := λ _, consistent); [by intros w Hw|]. intros [].
  eapply triple_bind; [apply resolve_ready|]. intros chunked_upload.
  eapply triple_bind with (R := λ _ w, ready (chunked_upload, w)).
  { intros w Hready. unfold Stage.read_range.
    destruct (declared_range request); [done|].
    destruct (fail_if_no_header cfg); [by apply ready_consistent in Hready|done]. }
  intros range. apply append_and_save_consistent.
Qed.

Section CompletionInvariant.
Import AbstractChunkedUpload ChunkedUploadCompleteView.
Context `{Hashlib} (cfg : Config) (env : Env).




End CompletionInvariant.

(** ** Further properties of the views *)

(** [post] answers a request from a user who is not authenticated with 403
    and runs nothing else: whatever [_post] is, the world is untouched. *)
Theorem unauthenticated_request_forbidden _post request w u :
  user request = Some u →
  is_authenticated u = false →
  ChunkedUploadBaseView.post _post request w =
    (w, Return {| response_data :=
                    [("detail"%string,
                      VStr "Authentication credentials were not provided")];
                  response_status := 403 |}).
Proof.
  intros Hu Hanon.
  unfold ChunkedUploadBaseView.post, ChunkedUploadBaseView.check_permissions.
  rewrite Hu, Hanon. reflexivity.
Qed.

Lemma unauthenticated_request_forbidden_witness :
  let request := Sample.sent_by Sample.anonymous (Sample.append None None 100) in
  ChunkedUploadView.post Sample.cfg (Sample.env 0) request Sample.empty_world =
    (Sample.empty_world,
     Return {| response_data :=
                 [("detail"%string,
                   VStr "Authentication credentials were not provided")];
               response_status := 403 |}).
Proof.
  intros request.
  apply (unauthenticated_request_forbidden
           (ChunkedUploadView._post Sample.cfg (Sample.env 0)) request
           Sample.empty_world Sample.anonymous); reflexivity.
Defined.

(** For a request that passes [check_permissions], [post] is [_post] with
    one change: a [ChunkedUploadError] becomes the response made of its data
    and status code.  Responses and all other exceptions go through, with
    the world [_post] left. *)
Theorem post_wraps_chunked_upload_errors _post request w w' outcome :
  permitted request = true →
  _post request w = (w', outcome) →
  ChunkedUploadBaseView.post _post request w =
    (w', match outcome with
         | Raise (CUE error) =>
             Return {| response_data := data error;
                       response_status := status_code error |}
         | _ => outcome
         end).
Proof.
  unfold permitted, ChunkedUploadBaseView.post,
    ChunkedUploadBaseView.check_permissions.
  intros Hperm Hpost.
  destruct (user request) as [u|]; [rewrite Hperm|]; cbn [negb];
    rewrite (bind_return _ _ w w tt), Hpost by done;
    by destruct outcome as [response|[]].
Qed.

Lemma post_wraps_chunked_upload_errors_witness :
  let request :=
    Sample.sent_by Sample.alice
      (Sample.append None (Some "bytes 50-99/100") 50) in
  ChunkedUploadView.post Sample.cfg (Sample.env 60) request Sample.empty_world =
    (with_empty_file (Sample.env 60) Sample.empty_world,
     Return {| response_data := [("detail"%string, VStr "Offsets do not match");
                                 ("offset"%string, VInt 0)];
               response_status := 400 |}).
Proof.
  intros request.
  apply (post_wraps_chunked_upload_errors
           (ChunkedUploadView._post Sample.cfg (Sample.env 60)) request
           Sample.empty_world _ (Raise (CUE (OffsetMismatch 0))));
    vm_compute; reflexivity.
Defined.

(** The queryset of an authenticated user hides what is not theirs. *)
Lemma get_queryset_hides request w u uid :
  user request = Some u →
  is_authenticated u = true →
  (∀ row, objects w !! uid = Some row → user_id row ≠ Some (user_pk u)) →
  ∃ queryset,
    ChunkedUploadBaseView.get_queryset request w = (w, Return queryset)
    ∧ queryset !! uid = None.
Proof.
  intros Hu Hauth Hother.
  destruct (get_queryset_run request w) as (q & Hq & Hrows).
  exists q. split; [done|]. apply eq_None_not_Some. intros [s Hs].
  apply Hrows in Hs as (row & Hrow & _ & Hsees).
  unfold sees in Hsees. rewrite Hu, Hauth in Hsees.
  apply bool_decide_eq_true in Hsees. by apply (Hother row).
Qed.

(** Users can only continue their own uploads: a chunk for an [upload_id]
    that the table does not hold, or holds for someone else, is answered as
    not found, by [_post] and by [post], and nothing is changed. *)
Theorem chunk_for_foreign_upload_not_found cfg env request w u uid chunk :
  user request = Some u →
  is_authenticated u = true →
  POST request !! "upload_id" = Some uid →
  truthy (Some uid) = true →
  chunk_of request = Some chunk →
  (∀ row, objects w !! uid = Some row → user_id row ≠ Some (user_pk u)) →
  ChunkedUploadView._post cfg env request w = (w, Raise Http404)
  ∧ ChunkedUploadView.post cfg env request w = (w, Raise Http404).
Proof.
  intros Hu Hauth Hid Hgiven Hchunk Hother.
  destruct (get_queryset_hides request w u uid Hu Hauth Hother)
    as (q & Hq & Hnone).
  assert (ChunkedUploadView._post cfg env request w = (w, Raise Http404))
    as Hpost.
  { rewrite _post_stages, Hchunk.
    rewrite (bind_return _ _ w w tt) by done.
    apply bind_raise. unfold Stage.resolve. rewrite Hid, Hgiven.
    rewrite (bind_return _ _ _ _ _ Hq).
    apply bind_raise. unfold ChunkedUploadBaseView.get_object_or_404.
    cbn [default from_option id]. by rewrite Hnone. }
  split; [done|].
  apply post_propagates; [|done|done]. unfold permitted. by rewrite Hu.
Qed.

Lemma chunk_for_foreign_upload_not_found_witness :
  let request :=
    Sample.sent_by Sample.alice
      (Sample.append (Some "0f3a") (Some "bytes 50-99/100") 50) in
  let w := Sample.world (Sample.row 50 UPLOADING None) 50 in
  ChunkedUploadView._post Sample.cfg (Sample.env 60) request w
    = (w, Raise Http404)
  ∧ ChunkedUploadView.post Sample.cfg (Sample.env 60) request w
    = (w, Raise Http404).
Proof.
  intros request w.
  apply (chunk_for_foreign_upload_not_found Sample.cfg (Sample.env 60) request w
           Sample.alice "0f3a" {| name := "a.txt"; content := Sample.bytes 50 |});
    try (vm_compute; reflexivity).
  intros row Hrow. cbn in Hrow.
  apply lookup_singleton_Some in Hrow as [_ <-]. discriminate.
Defined.

(** The same for completion: the upload of someone else cannot be
    completed, and is not changed by the attempt. *)
Theorem completion_of_foreign_upload_not_found `{Hashlib} cfg env request w u uid :
  user request = Some u →
  is_authenticated u = true →
  POST request !! "upload_id" = Some uid →
  truthy (Some uid) = true →
  (do_md5_check cfg = true → truthy (POST request !! "md5") = true) →
  (∀ row, objects w !! uid = Some row → user_id row ≠ Some (user_pk u)) →
  ChunkedUploadCompleteView._post cfg env request w = (w, Raise Http404)
  ∧ ChunkedUploadCompleteView.post cfg env request w = (w, Raise Http404).
Proof.
  intros Hu Hauth Hid Hgiven Hmd5 Hother.
  destruct (get_queryset_hides request w u uid Hu Hauth Hother)
    as (q & Hq & Hnone).
  assert (ChunkedUploadCompleteView._post cfg env request w = (w, Raise Http404))
    as Hpost.
  { unfold ChunkedUploadCompleteView._post. rewrite Hid, Hgiven.
    cbn [negb orb].
    assert ((if do_md5_check cfg
             then if negb (truthy (POST request !! "md5"))
                  then Some "Both 'upload_id' and 'md5' are required"%string
                  else None
             else None) = None) as ->.
    { destruct (do_md5_check cfg); [|done]. by rewrite Hmd5. }
    rewrite (bind_return _ _ w w tt) by done.
    rewrite (bind_return _ _ _ _ _ Hq).
    apply bind_raise. unfold ChunkedUploadBaseView.get_object_or_404.
    cbn [default from_option id]. by rewrite Hnone. }
  split; [done|].
  apply post_propagates; [|done|done]. unfold permitted. by rewrite Hu.
Qed.

Lemma completion_of_foreign_upload_not_found_witness :
  let request := Sample.sent_by Sample.alice (Sample.complete "0f3a" "100") in
  let w := Sample.world (Sample.row 100 UPLOADING None) 100 in
  ChunkedUploadCompleteView._post (H := Sample.length_digest)
      Sample.cfg (Sample.env 120) request w = (w, Raise Http404)
  ∧ ChunkedUploadCompleteView.post (H := Sample.length_digest)
      Sample.cfg (Sample.env 120) request w = (w, Raise Http404).
Proof.
  intros request w.
  apply (completion_of_foreign_upload_not_found (H := Sample.length_digest)
           Sample.cfg (Sample.env 120) request w Sample.alice "0f3a");
    try (vm_compute; reflexivity).
  intros row Hrow. cbn in Hrow.
  apply lookup_singleton_Some in Hrow as [_ <-]. discriminate.
Defined.

(** ** The content-range pattern *)







(** ** What a failed chunk append leaves *)

Section FailedAppend.
Import AbstractChunkedUpload.
Context (cfg : Config) (env : Env) (w0 : World).

Lemma append_chunk_same chunk chunk_size :
  keeps (λ s : ChunkedUpload * World, (same_table w0) s.2)
    (append_chunk cfg env chunk chunk_size false).
Proof.
  intros [self w] Hsame. unfold append_chunk.
  destruct (USE_AZURE_APPEND_BLOB cfg).
  - unfold append_block, exists_, delete_blob, create_append_blob. mrun.
    case_bool_decide as Hzero; cbn.
    + case_bool_decide as Hfound; cbn; rewrite lookup_insert_eq;
        (destruct (write_fault env); cbn; [|destruct chunk_size; cbn]);
        exact Hsame.
    + destruct (write_fault env); [done|].
      destruct (storage w !! file self) as [old|]; [|done]. cbn.
      destruct chunk_size; exact Hsame.
  - unfold open_ab_write. mrun.
    destruct (write_fault env); cbn; [|destruct chunk_size; cbn]; exact Hsame.
Qed.

Lemma _save_raises_same request self :
  triple (same_table w0) (call self (ChunkedUploadBaseView._save env request))
    (λ _ _, True) (same_table w0).
Proof.
  intros w Hsame.
  unfold call, ChunkedUploadBaseView._save, ChunkedUploadBaseView.pre_save,
    ChunkedUploadBaseView.post_save, ChunkedUploadBaseView.save.
  erewrite bind_return by reflexivity. cbn beta.
  erewrite bind_return by reflexivity.
  destruct (pk self) as [p|] eqn:Hpk.
  - by erewrite bind_return by (by apply save_update with (p := p)).
  - destruct (objects w !! upload_id self) as [row|] eqn:Hrow.
    + by erewrite bind_raise by (by apply save_taken; [|eexists]).
    + by erewrite bind_return by (by apply save_insert).
Qed.

Lemma resolve_same request chunk :
  keeps (same_table w0) (Stage.resolve cfg env request chunk).
Proof.
  intros w Hsame. unfold Stage.resolve.
  destruct (truthy (POST request !! "upload_id")); [|exact Hsame].
  destruct (get_queryset_run request w) as (q & Hq & _).
  rewrite (bind_return _ _ _ _ _ Hq).
  unfold ChunkedUploadBaseView.get_object_or_404.
  destruct (q !! default EmptyString (POST request !! "upload_id")) as [s|];
    [|done].
  rewrite (bind_return _ _ w w s) by done.
  unfold ChunkedUploadView.is_valid_chunked_upload.
  destruct (expired cfg env s); [done|]. by case_bool_decide.
Qed.

Lemma _post_raises_same request :
  triple (same_table w0) (ChunkedUploadView._post cfg env request) (λ _ _, True) (same_table w0).
Proof.
  rewrite _post_stages. destruct (chunk_of request) as [chunk|]; [|by intros w Hw].
  eapply triple_bind with (R := λ _, (same_table w0)); [by intros w Hw|]. intros [].
  eapply triple_bind; [apply resolve_same|]. intros chunked_upload.
  eapply triple_bind with (R := λ _, (same_table w0)).
  { intros w Hw. unfold Stage.read_range.
    destruct (declared_range request); [done|].
    by destruct (fail_if_no_header cfg). }
  intros [[start end_] total]. unfold Stage.append_and_save.
  eapply triple_bind with (R := λ _, (same_table w0)).
  { intros w Hw. destruct (ChunkedUploadView.get_max_bytes cfg request); [|done].
    by destruct (_ <? _). }
  intros [].
  destruct (negb (bool_decide (offset chunked_upload = start)));
    [by intros w Hw|].
  destruct (negb (bool_decide (size chunk = end_ - start + 1)));
    [by intros w Hw|].
  eapply triple_bind with (R := λ _, (same_table w0)).
  { intros w Hw.
    pose proof (append_chunk_same chunk (Some (end_ - start + 1))
                  (chunked_upload, w) Hw) as Hkept.
    unfold call.
    by destruct (append_chunk cfg env chunk (Some (end_ - start + 1)) false
                   (chunked_upload, w)) as [[self' w'] [[]|e]]. }
  intros [self1 []].
  eapply triple_bind; [apply _save_raises_same|].
  intros [self2 []]. by intros w _.
Qed.

End FailedAppend.

(** A chunk-append request that raises, whatever it raises (a
    [ChunkedUploadError], a 404, an error of the storage or of the table),
    has changed no row of the table: no session was created, advanced or
    otherwise modified, and no primary key was used.  At most the storage
    has changed. *)
Theorem failed_append_leaves_table cfg env request w w' e :
  ChunkedUploadView._post cfg env request w = (w', Raise e) →
  objects w' = objects w ∧ next_pk w' = next_pk w
  ∧ completions w' = completions w.
Proof.
  intros Hpost.
  pose proof (_post_raises_same cfg env w request w
                (conj eq_refl (conj eq_refl eq_refl))) as Hkept.
  by rewrite Hpost in Hkept.
Qed.

Lemma failed_append_leaves_table_witness :
  let request := Sample.append (Some "0f3a") (Some "bytes 50-99/100") 50 in
  let w := Sample.world (Sample.row 50 UPLOADING None) 50 in
  let w' :=
    set_storage (<[ "uploads/0f3a.part"%string := Sample.bytes 70 ]> (storage w)) w in
  ChunkedUploadView._post Sample.cfg (Sample.faulty_env 20) request w
    = (w', Raise IOError)
  ∧ objects w' = objects w ∧ next_pk w' = next_pk w
  ∧ completions w' = completions w.
Proof.
  intros request w w'.
  assert (ChunkedUploadView._post Sample.cfg (Sample.faulty_env 20) request w
            = (w', Raise IOError)) as Hpost by (vm_compute; reflexivity).
  split; [exact Hpost|].
  exact (failed_append_leaves_table Sample.cfg (Sample.faulty_env 20) request
           w w' IOError Hpost).
Defined.

(** ** Consistency, stated for single requests *)

(** Every chunk-append request, accepted or not, takes a consistent world
    (every row stored under its own identifier, with a primary key, and
    with its file in the storage) to a consistent world. *)
Theorem chunk_append_preserves_consistency cfg env request w w' outcome :
  consistent w →
  ChunkedUploadView._post cfg env request w = (w', outcome) →
  consistent w'.
Proof.
  intros Hw Hpost.
  pose proof (upload_keeps_consistent cfg env request w Hw) as Hkept.
  rewrite Hpost in Hkept. by destruct outcome.
Qed.

Lemma chunk_append_preserves_consistency_witness :
  consistent
    (ChunkedUploadView._post Sample.cfg (Sample.env 0)
       (Sample.append None None 100) Sample.empty_world).1.
Proof.
  destruct (ChunkedUploadView._post Sample.cfg (Sample.env 0)
              (Sample.append None None 100) Sample.empty_world)
    as [w' outcome] eqn:Hpost.
  apply (chunk_append_preserves_consistency Sample.cfg (Sample.env 0)
           (Sample.append None None 100) Sample.empty_world w' outcome);
    [apply map_Forall_empty|exact Hpost].
Defined.



(** ** Completion and the storage *)

Section CompletionStorage.
Import AbstractChunkedUpload ChunkedUploadCompleteView.
Context `{Hashlib} (cfg : Config) (env : Env) (w0 : World).

Lemma method_keeps_storage {A} (m : Method A) self :
  keeps (λ s : ChunkedUpload * World, storage s.2 = storage w0) m →
  keeps (λ w, storage w = storage w0) (call self m).
Proof.
  intros Hm w Hw. specialize (Hm (self, w) Hw). unfold call.
  by destruct (m (self, w)) as [[self' w'] [a|e]].
Qed.

Lemma save_keeps_storage :
  keeps (λ s : ChunkedUpload * World, storage s.2 = storage w0) (save env).
Proof.
  intros [self w] Hw. unfold save. mrun.
  destruct (pk self); [done|]. by destruct (objects w !! upload_id self).
Qed.

Lemma _post_keeps_storage request :
  keeps (λ w, storage w = storage w0) (_post cfg env request).
Proof.
  unfold _post.
  eapply triple_bind with (R := λ _ w, storage w = storage w0).
  { intros w Hw. by destruct (do_md5_check cfg),
      (truthy (POST request !! "upload_id")), (truthy (POST request !! "md5")). }
  intros [].
  eapply triple_bind with (R := λ _ w, storage w = storage w0).
  { intros w Hw. by destruct (get_queryset_run request w) as (q & -> & _). }
  intros q.
  eapply triple_bind with (R := λ _ w, storage w = storage w0).
  { intros w Hw. unfold ChunkedUploadBaseView.get_object_or_404.
    by destruct (q !! _). }
  intros s.
  eapply triple_bind with (R := λ _ w, storage w = storage w0);
    [by intros w Hw|]. intros [].
  eapply triple_bind with (R := λ _ w, storage w = storage w0).
  { intros w Hw. unfold is_valid_chunked_upload. by case_bool_decide. }
  intros [].
  eapply triple_bind with (R := λ _ w, storage w = storage w0).
  { destruct (do_md5_check cfg); [|by intros w Hw].
    apply method_keeps_storage. intros [self w] Hw.
    unfold md5_check, md5. mrun.
    destruct (_md5 self); cbn; [by destruct (negb _)|].
    destruct (storage w !! file self); cbn; [|done]. by destruct (negb _). }
  intros [s1 []].
  eapply triple_bind with (R := λ _ w, storage w = storage w0).
  { apply method_keeps_storage. unfold ChunkedUploadBaseView._save.
    apply triple_bind with (R := λ _ s, storage s.2 = storage w0);
      [by intros s' Hs|]. intros self.
    apply triple_bind with (R := λ _ s, storage s.2 = storage w0);
      [by intros s' Hs|]. intros [].
    apply triple_bind with (R := λ _ s, storage s.2 = storage w0);
      [apply save_keeps_storage|]. intros []. by intros s' Hs. }
  intros [s2 []].
  eapply triple_bind with (R := λ _ w, storage w = storage w0).
  { apply method_keeps_storage. intros [self w] Hw.
    unfold get_uploaded_file. mrun. by destruct (storage w !! file self). }
  intros [s3 uploaded_file].
  eapply triple_bind with (R := λ _ w, storage w = storage w0);
    [by intros w Hw|]. intros []. by intros w Hw.
Qed.

End CompletionStorage.

(** A completion request never writes to the storage: however it ends, every
    file and blob holds the bytes it held before.  Completing an upload
    verifies and marks; it does not move, rewrite or delete the object. *)
Theorem completion_leaves_storage `{Hashlib} cfg env request w :
  storage (ChunkedUploadCompleteView._post cfg env request w).1 = storage w.
Proof.
  pose proof (_post_keeps_storage cfg env w request w eq_refl) as Hkept.
  by destruct (ChunkedUploadCompleteView._post cfg env request w)
    as [w' [response|e]].
Qed.

(** ** The cached digest *)

(** [append_chunk] drops the cached digest: after an append the digest is
    computed afresh, over the backing object with the new bytes at its end,
    whatever was cached before.  Once computed it is served from the cache,
    without another look at the storage, until the next append. *)
Theorem digest_follows_append `{Hashlib} cfg env chunk n self w :
  write_fault env = None →
  (USE_AZURE_APPEND_BLOB cfg = true → offset self ≠ 0 →
   is_Some (storage w !! file self)) →
  ∃ s1 w1 bytes,
    AbstractChunkedUpload.append_chunk cfg env chunk (Some n) false (self, w)
      = ((s1, w1), Return tt)
    ∧ bytes = sink_base cfg self w ++ content chunk
    ∧ backing_object w1 s1 = Some bytes
    ∧ AbstractChunkedUpload.md5 (s1, w1)
      = ((set__md5 (Some (md5_hexdigest bytes)) s1, w1),
         Return (md5_hexdigest bytes))
    ∧ ∀ w2, AbstractChunkedUpload.md5
              (set__md5 (Some (md5_hexdigest bytes)) s1, w2)
            = ((set__md5 (Some (md5_hexdigest bytes)) s1, w2),
               Return (md5_hexdigest bytes)).
Proof.
  intros Hfault Hblob.
  eexists _, _, _. split; [by apply append_chunk_ok|]. split; [done|].
  assert (backing_object
            (set_storage
               (<[file self := sink_base cfg self w ++ content chunk]> (storage w)) w)
            (advanced n self)
          = Some (sink_base cfg self w ++ content chunk)) as Hbytes.
  { unfold backing_object. cbn. by rewrite lookup_insert_eq. }
  split; [done|]. split; [by apply md5_computed|].
  intros w2. unfold AbstractChunkedUpload.md5. by mrun.
Qed.

Lemma digest_follows_append_witness :
  let self := set__md5 (Some "50"%string) (Sample.row 50 UPLOADING None) in
  ∃ s1 w1,
    AbstractChunkedUpload.append_chunk Sample.cfg (Sample.env 60)
        {| name := "a.txt"; content := Sample.bytes 50 |} (Some 50) false
        (self, Sample.world self 50)
      = ((s1, w1), Return tt)
    ∧ AbstractChunkedUpload.md5 (H := Sample.length_digest) (s1, w1)
      = ((set__md5 (Some "100"%string) s1, w1), Return "100"%string).
Proof.
  intros self.
  destruct (digest_follows_append (H := Sample.length_digest) Sample.cfg
              (Sample.env 60) {| name := "a.txt"; content := Sample.bytes 50 |}
              50 self (Sample.world self 50))
    as (s1 & w1 & bytes & Happend & -> & _ & Hmd5 & _);
    [reflexivity|discriminate|].
  exists s1, w1. split; [exact Happend|]. exact Hmd5.
Defined.

(** ** More rejections of chunks *)

(** A session is past use from the very instant [created_on +
    EXPIRATION_DELTA] on: a chunk that names it is refused with 410, before
    its status, its range or its size are looked at, and nothing changes. *)
Theorem chunk_refused_once_expired cfg env request w s chunk :
  named_session request w = Some s →
  chunk_of request = Some chunk →
  created_on s + EXPIRATION_DELTA cfg ≤ now env →
  ChunkedUploadView._post cfg env request w = (w, Raise (CUE Expired)).
Proof.
  intros Hs Hchunk Hlate. rewrite _post_stages, Hchunk.
  rewrite (bind_return _ _ w w tt) by done.
  apply bind_raise. rewrite (resolve_existing cfg env request chunk w s Hs).
  unfold AbstractChunkedUpload.expired, AbstractChunkedUpload.expires_on.
  apply Z.leb_le in Hlate. by rewrite Hlate.
Qed.

(** The next chunk arrives exactly one day after the upload was created. *)
Lemma chunk_refused_once_expired_witness :
  let request := Sample.append (Some "0f3a") (Some "bytes 50-99/100") 50 in
  let w := Sample.world (Sample.row 50 UPLOADING None) 50 in
  ChunkedUploadView._post Sample.cfg (Sample.env 86400) request w
    = (w, Raise (CUE Expired)).
Proof.
  intros request w.
  apply (chunk_refused_once_expired Sample.cfg (Sample.env 86400) request w
           (Sample.row 50 UPLOADING None)
           {| name := "a.txt"; content := Sample.bytes 50 |});
    [vm_compute; reflexivity|vm_compute; reflexivity|vm_compute; discriminate].
Defined.

(** A chunk in its place whose length is not the one its range declares is
    refused with SizeMismatch, and nothing is appended or saved. *)
Theorem chunk_of_wrong_length_rejected cfg env request w s chunk end_ total :
  named_session request w = Some s →
  chunk_of request = Some chunk →
  declared_range request = Some (offset s, end_, total) →
  AbstractChunkedUpload.expired cfg env s = false →
  status s = UPLOADING →
  within_limit cfg total = true →
  size chunk ≠ end_ - offset s + 1 →
  ChunkedUploadView._post cfg env request w = (w, Raise (CUE SizeMismatch)).
Proof.
  intros Hs Hchunk Hrange Hexp Hst Hlim Hsize.
  rewrite (_post_existing cfg env request w s chunk _ Hs Hchunk Hrange).
  rewrite Hexp, bool_decide_eq_false_2 by congruence.
  by apply append_and_save_size.
Qed.

(** Forty bytes sent as [bytes 50-99/100]. *)
Lemma chunk_of_wrong_length_rejected_witness :
  let request := Sample.append (Some "0f3a") (Some "bytes 50-99/100") 40 in
  let w := Sample.world (Sample.row 50 UPLOADING None) 50 in
  ChunkedUploadView._post Sample.cfg (Sample.env 60) request w
    = (w, Raise (CUE SizeMismatch)).
Proof.
  intros request w.
  apply (chunk_of_wrong_length_rejected Sample.cfg (Sample.env 60) request w
           (Sample.row 50 UPLOADING None)
           {| name := "a.txt"; content := Sample.bytes 40 |} 99 100);
    try (vm_compute; reflexivity).
  vm_compute. discriminate.
Defined.

(** When the header is required, a chunk whose header is absent or does not
    match the pattern is refused with MissingRangeHeader.  For a session in
    use nothing changes; for a new upload no session is saved, but the
    storage keeps the empty file made for it. *)
Theorem required_header_missing cfg env request w chunk :
  fail_if_no_header cfg = true →
  declared_range request = None →
  chunk_of request = Some chunk →
  (∀ s, named_session request w = Some s →
        AbstractChunkedUpload.expired cfg env s = false →
        status s = UPLOADING →
        ChunkedUploadView._post cfg env request w
          = (w, Raise (CUE MissingRangeHeader)))
  ∧ (truthy (POST request !! "upload_id") = false →
     ChunkedUploadView._post cfg env request w
       = (with_empty_file env w, Raise (CUE MissingRangeHeader))).
Proof.
  intros Hpolicy Hrange Hchunk. split.
  - intros s Hs Hexp Hst. rewrite _post_stages, Hchunk.
    rewrite (bind_return _ _ w w tt) by done.
    pose proof (resolve_existing cfg env request chunk w s Hs) as Hres.
    rewrite Hexp, bool_decide_eq_false_2 in Hres by congruence.
    rewrite (bind_return _ _ _ _ _ Hres).
    apply bind_raise. rewrite read_range_absent by done. by rewrite Hpolicy.
  - intros Hnew. rewrite _post_stages, Hchunk.
    rewrite (bind_return _ _ w w tt) by done.
    rewrite (bind_return _ _ _ _ _ (resolve_new cfg env request chunk w Hnew)).
    apply bind_raise. rewrite read_range_absent by done. by rewrite Hpolicy.
Qed.

(** A new upload and the next chunk of another, both without header. *)
Lemma required_header_missing_witness :
  ChunkedUploadView._post Sample.strict_cfg (Sample.env 60)
      (Sample.append (Some "0f3a") None 50)
      (Sample.world (Sample.row 50 UPLOADING None) 50)
    = (Sample.world (Sample.row 50 UPLOADING None) 50,
       Raise (CUE MissingRangeHeader))
  ∧ ChunkedUploadView._post Sample.strict_cfg (Sample.env 60)
      (Sample.append None None 50) Sample.empty_world
    = (with_empty_file (Sample.env 60) Sample.empty_world,
       Raise (CUE MissingRangeHeader)).
Proof.
  split.
  - destruct (required_header_missing Sample.strict_cfg (Sample.env 60)
                (Sample.append (Some "0f3a") None 50)
                (Sample.world (Sample.row 50 UPLOADING None) 50)
                {| name := "a.txt"; content := Sample.bytes 50 |})
      as [Hexisting _];
      [vm_compute; reflexivity|vm_compute; reflexivity|vm_compute; reflexivity|].
    apply (Hexisting (Sample.row 50 UPLOADING None)); vm_compute; reflexivity.
  - destruct (required_header_missing Sample.strict_cfg (Sample.env 60)
                (Sample.append None None 50) Sample.empty_world
                {| name := "a.txt"; content := Sample.bytes 50 |})
      as [_ Hnew];
      [vm_compute; reflexivity|vm_compute; reflexivity|vm_compute; reflexivity|].
    apply Hnew. vm_compute. reflexivity.
Defined.

(** The disk fills up during the second half of the upload. *)
Lemma post_failed_write_witness :
  let request := Sample.append (Some "0f3a") (Some "bytes 50-99/100") 50 in
  let w := Sample.world (Sample.row 50 UPLOADING None) 50 in
  ∃ w',
    ChunkedUploadView.post Sample.cfg (Sample.faulty_env 20) request w
      = (w', Raise IOError)
    ∧ objects w' = objects w.
Proof.
  intros request w.
  apply (post_failed_write Sample.cfg (Sample.faulty_env 20) request w
           (Sample.row 50 UPLOADING None)
           {| name := "a.txt"; content := Sample.bytes 50 |} 99 100 20);
    vm_compute; reflexivity.
Defined.

(** The file of a finished upload has gone from the storage; checksums are
    not verified. *)
Lemma completion_without_object_witness :
  let s := Sample.row 100 UPLOADING None in
  let w := set_storage ∅ (Sample.world s 100) in
  ChunkedUploadCompleteView._post (H := Sample.length_digest)
      Sample.unverified_cfg (Sample.env 120) (Sample.complete "0f3a" "100") w
    = (set_objects (<[ "0f3a"%string := completed (Sample.env 120) s ]> (objects w)) w,
       Raise IOError).
Proof.
  intros s w.
  apply (completion_without_object (H := Sample.length_digest)
           Sample.unverified_cfg (Sample.env 120) (Sample.complete "0f3a" "100")
           w s 1); try (vm_compute; reflexivity); discriminate.
Defined.

(** ** From the first chunk to completion *)

Section Hooks.
Import AbstractChunkedUpload.
Context (cfg : Config) (env : Env) (hooks : list UploadedFile).

Lemma append_chunk_no_hook chunk chunk_size :
  keeps (λ s : ChunkedUpload * World, completions s.2 = hooks)
    (append_chunk cfg env chunk chunk_size false).
Proof.
  intros [self w] Hsame. unfold append_chunk.
  destruct (USE_AZURE_APPEND_BLOB cfg).
  - unfold append_block, exists_, delete_blob, create_append_blob. mrun.
    case_bool_decide as Hzero; cbn.
    + case_bool_decide as Hfound; cbn; rewrite lookup_insert_eq;
        (destruct (write_fault env); cbn; [|destruct chunk_size; cbn]);
        exact Hsame.
    + destruct (write_fault env); [done|].
      destruct (storage w !! file self) as [old|]; [|done]. cbn.
      destruct chunk_size; exact Hsame.
  - unfold open_ab_write. mrun.
    destruct (write_fault env); cbn; [|destruct chunk_size; cbn]; exact Hsame.
Qed.

Lemma _save_no_hook request self :
  keeps (λ w, completions w = hooks)
    (call self (ChunkedUploadBaseView._save env request)).
Proof.
  intros w Hsame.
  unfold call, ChunkedUploadBaseView._save, ChunkedUploadBaseView.pre_save,
    ChunkedUploadBaseView.post_save, ChunkedUploadBaseView.save.
  erewrite bind_return by reflexivity. cbn beta.
  erewrite bind_return by reflexivity.
  destruct (pk self) as [p|] eqn:Hpk.
  - by erewrite bind_return by (by apply save_update with (p := p)).
  - destruct (objects w !! upload_id self) as [row|] eqn:Hrow.
    + by erewrite bind_raise by (by apply save_taken; [|eexists]).
    + by erewrite bind_return by (by apply save_insert).
Qed.

Lemma _post_no_hook request :
  keeps (λ w, completions w = hooks) (ChunkedUploadView._post cfg env request).
Proof.
  rewrite _post_stages. destruct (chunk_of request) as [chunk|]; [|by intros w Hw].
  eapply triple_bind with (R := λ _ w, completions w = hooks);
    [by intros w Hw|]. intros [].
  eapply triple_bind with (R := λ _ w, completions w = hooks).
  { intros w Hsame. unfold Stage.resolve.
    destruct (truthy (POST request !! "upload_id")); [|exact Hsame].
    destruct (get_queryset_run request w) as (q & Hq & _).
    rewrite (bind_return _ _ _ _ _ Hq).
    unfold ChunkedUploadBaseView.get_object_or_404.
    destruct (q !! default EmptyString (POST request !! "upload_id")) as [s|];
      [|done].
    rewrite (bind_return _ _ w w s) by done.
    unfold ChunkedUploadView.is_valid_chunked_upload.
    destruct (expired cfg env s); [done|]. by case_bool_decide. }
  intros chunked_upload.
  eapply triple_bind with (R := λ _ w, completions w = hooks).
  { intros w Hw. unfold Stage.read_range.
    destruct (declared_range request); [done|].
    by destruct (fail_if_no_header cfg). }
  intros [[start end_] total]. unfold Stage.append_and_save.
  eapply triple_bind with (R := λ _ w, completions w = hooks).
  { intros w Hw. destruct (ChunkedUploadView.get_max_bytes cfg request); [|done].
    by destruct (_ <? _). }
  intros [].
  destruct (negb (bool_decide (offset chunked_upload = start)));
    [by intros w Hw|].
  destruct (negb (bool_decide (size chunk = end_ - start + 1)));
    [by intros w Hw|].
  eapply triple_bind with (R := λ _ w, completions w = hooks).
  { intros w Hw.
    pose proof (append_chunk_no_hook chunk (Some (end_ - start + 1))
                  (chunked_upload, w) Hw) as Hkept.
    unfold call.
    by destruct (append_chunk cfg env chunk (Some (end_ - start + 1)) false
                   (chunked_upload, w)) as [[self' w'] [[]|e]]. }
  intros [self1 []].
  eapply triple_bind; [apply _save_no_hook|].
  intros [self2 []]. by intros w Hw.
Qed.

End Hooks.

Lemma run_no_hook cfg requests w :
  completions (run cfg requests w).1 = completions w.
Proof.
  revert w. induction requests as [|[env request] rest IH]; intros w; [done|].
  cbn [run].
  pose proof (_post_no_hook cfg env (completions w) request w eq_refl) as Hkept.
  destruct (ChunkedUploadView._post cfg env request w) as [w1 outcome].
  assert (completions w1 = completions w) as <- by (by destruct outcome).
  specialize (IH w1). by destruct (run cfg rest w1) as [w2 outcomes].
Qed.

(** The completion hook is the business of completion alone: no
    chunk-append request, accepted or refused, calls it. *)
Theorem chunk_append_calls_no_hook cfg env request w :
  completions (ChunkedUploadView._post cfg env request w).1 = completions w.
Proof.
  pose proof (_post_no_hook cfg env (completions w) request w eq_refl) as Hkept.
  by destruct (ChunkedUploadView._post cfg env request w) as [w1 [response|e]].
Qed.

Lemma in_progress_named first w s bytes request :
  truthy (Some (uuid4_hex first.1)) = true →
  in_progress first w s bytes →
  POST request !! "upload_id" = Some (uuid4_hex first.1) →
  user request = user first.2 →
  named_session request w = Some (set__md5 None s).
Proof.
  intros Hid Hprogress Hname Huser.
  apply named_session_Some. exists (uuid4_hex first.1), s.
  split; [done|]. split; [done|]. split; [apply Hprogress|]. split; [done|].
  unfold sees. rewrite Huser, (progress_owner _ _ _ _ Hprogress).
  unfold ChunkedUploadView.get_extra_attrs.
  destruct (user first.2) as [u|]; [|done].
  destruct (is_authenticated u); [|done]. by apply bool_decide_eq_true.
Qed.

(** An upload from the first chunk to completion.  When the chunks of an
    upload are delivered in order and accepted, and the same user then asks
    for completion,
    at any later time, with the digest of the concatenated chunks as
    checksum (or with verification disabled), the completion succeeds: the
    session is saved as Complete, its offset the sum of the lengths of the
    chunks, its backing object their concatenation, and the hook is called,
    for the first time, with a handle that reports that sum as size. *)
Theorem upload_then_complete `{Hashlib} cfg w first rest env request :
  truthy (Some (uuid4_hex first.1)) = true →
  objects w !! uuid4_hex first.1 = None →
  truthy (POST first.2 !! "upload_id") = false →
  in_order cfg 0 (first :: rest) = true →
  forallb (admitted cfg) (first :: rest) = true →
  forallb (continues cfg first) rest = true →
  POST request !! "upload_id" = Some (uuid4_hex first.1) →
  user request = user first.2 →
  (do_md5_check cfg = true →
     checksum_matches request (assembled (first :: rest))) →
  ∃ w1 outcomes w2 response s,
    run cfg (first :: rest) w = (w1, outcomes)
    ∧ Forall accepted outcomes
    ∧ ChunkedUploadCompleteView._post cfg env request w1 = (w2, Return response)
    ∧ response_status response = 200
    ∧ session w2 (uuid4_hex first.1) = Some s
    ∧ status s = COMPLETE
    ∧ completed_on s = Some (now env)
    ∧ offset s = chunk_lengths (first :: rest)
    ∧ backing_object w2 s = Some (assembled (first :: rest))
    ∧ completions w2 =
        {| uf_file := file s; uf_mode := "rb"; uf_name := filename s;
           uf_size := chunk_lengths (first :: rest) |} :: completions w.
Proof.
  intros Hid Hfree Hnew Horder Hadm Hcont Hname Huser Hsum.
  destruct first as [env0 request0].
  cbn [forallb] in Hadm. apply andb_prop in Hadm as [Hadm Hadms].
  destruct (start_upload cfg env0 request0 rest w)
    as (w0 & response0 & s0 & chunk & Hpost0 & Hok & Hchunk & Hrest & Hprogress0);
    try done.
  destruct (continue_upload cfg (env0, request0) rest Hid Hadms Hcont w0 s0
              (content chunk) Hprogress0 Hrest)
    as (w1 & outcomes & s1 & Hrun & Hacc & Hlen & Hprogress).
  assert (content chunk ++ assembled rest = assembled ((env0, request0) :: rest))
    as Hbytes.
  { unfold assembled. cbn [fmap list_fmap concat]. unfold chunk_bytes at 2.
    cbn [snd]. by rewrite Hchunk. }
  rewrite Hbytes in Hprogress.
  pose proof (in_progress_named (env0, request0) w1 s1 _ request
                Hid Hprogress Hname Huser) as Hnamed.
  pose proof (run_no_hook cfg ((env0, request0) :: rest) w) as Hhooks.
  cbn [run] in Hhooks. rewrite Hpost0, Hrun in Hhooks. cbn [fst] in Hhooks.
  destruct Hprogress.
  pose proof (_post_complete cfg env request w1 (set__md5 None s1)
                (assembled ((env0, request0) :: rest)) Hnamed progress_pk0
                progress_bytes0) as Hpost.
  rewrite bool_decide_eq_false_2 in Hpost by (cbn; congruence).
  assert (ChunkedUploadCompleteView._post cfg env request w1 =
            (completion env (set__md5 None s1) w1,
             Return {| response_data := []; response_status := 200 |}))
    as Hdone.
  { rewrite Hpost. destruct (do_md5_check cfg); cbn [andb]; [|done].
    destruct (Hsum eq_refl) as [Hmd5 ->]. cbn [negb].
    by rewrite bool_decide_eq_true_2 by done. }
  exists w1, (Return response0 :: outcomes),
    (completion env (set__md5 None s1) w1),
    {| response_data := []; response_status := 200 |},
    (completed env (set__md5 None s1)).
  cbn [run]. rewrite Hpost0, Hrun. split; [done|]. split.
  { constructor; [by apply accepted_return|done]. }
  split; [exact Hdone|]. split; [done|].
  cbn [fst] in progress_id0. cbn [fst]. split.
  { unfold session, completion.
    cbn -[assembled chunk_lengths]. rewrite progress_id0, lookup_insert_eq.
    reflexivity. }
  split; [done|]. split; [done|]. split.
  { cbn -[assembled chunk_lengths]. rewrite progress_offset0.
    apply length_assembled. }
  split.
  { unfold backing_object. cbn -[assembled chunk_lengths]. exact progress_bytes0. }
  unfold completion, handle. cbn -[assembled chunk_lengths].
  by rewrite Hhooks, progress_offset0, length_assembled.
Qed.

(** Two halves of fifty bytes a minute apart, completed three days later
    with the checksum of the hundred bytes. *)
Lemma upload_then_complete_witness :
  let first := (Sample.env 0, Sample.append None (Some "bytes 0-49/100") 50) in
  let second :=
    (Sample.env 60, Sample.append (Some "0f3a") (Some "bytes 50-99/100") 50) in
  ∃ w1 outcomes w2 response s,
    run Sample.cfg [first; second] Sample.empty_world = (w1, outcomes)
    ∧ Forall accepted outcomes
    ∧ ChunkedUploadCompleteView._post (H := Sample.length_digest) Sample.cfg
        (Sample.env 259200) (Sample.complete "0f3a" "100") w1
      = (w2, Return response)
    ∧ response_status response = 200
    ∧ session w2 "0f3a" = Some s
    ∧ status s = COMPLETE
    ∧ completed_on s = Some 259200
    ∧ offset s = 100
    ∧ backing_object w2 s = Some (Sample.bytes 100)
    ∧ completions w2 =
        [{| uf_file := file s; uf_mode := "rb"; uf_name := filename s;
            uf_size := 100 |}].
Proof.
  intros first second.
  apply (upload_then_complete (H := Sample.length_digest) Sample.cfg
           Sample.empty_world first [second] (Sample.env 259200)
           (Sample.complete "0f3a" "100"));
    try (vm_compute; reflexivity).
  intros _. split; vm_compute; reflexivity.
Defined.
